(** * postcodes-io-api: renderer, request helpers and click handlers of main.js

    The script is a browser front end for the postcodes.io API.  It is
    embedded here as executable Rocq definitions:

    - strings are byte strings: the UTF-8 form of the script's strings (a
      string with an unpaired surrogate has none and is not covered);
    - a value is what [JSON.parse] can return, plus [undefined];
    - the page (input fields, results area) and the log of the requests that
      were sent form an explicit [world], threaded through a small monad in
      which an exception keeps the world it was raised in;
    - the network is a function from requests to what [fetch] answers;
    - a click runs its listener to the end: the listeners of two clicks are
      not interleaved.

    What the JavaScript engine and the browser provide and the script never
    inspects is kept as an interface: the number type in [JSNumber];
    [toUpperCase], [JSON.parse] and the texts of the engine's own error
    messages in [Engine]. *)

From Stdlib Require Import String Ascii List Arith ZArith Bool Lia DecimalString.
Import ListNotations.
Open Scope list_scope.
Open Scope string_scope.


(** ** Strings *)

Module Str.

(** The double quote character, U+0022. *)
Definition dquote : string := String "034"%char "".

(** [s.replace(/c/g, by)] for a one-character pattern. *)
Fixpoint replace_all (c : ascii) (by_ : string) (s : string) : string :=
  match s with
  | "" => ""
  | String a rest =>
      if Ascii.eqb a c then by_ ++ replace_all c by_ rest
      else String a (replace_all c by_ rest)
  end.

(** [parts.join(sep)]. *)
Definition join (sep : string) (parts : list string) : string :=
  String.concat sep parts.

Definition is_empty (s : string) : bool :=
  match s with "" => true | _ => false end.

(** [s.split(/.../)] for a pattern that matches single characters: the
    pieces between the matches, always at least one piece. *)
Fixpoint split (sep : ascii -> bool) (s : string) : list string :=
  match s with
  | "" => [""]
  | String a rest =>
      if sep a then "" :: split sep rest
      else match split sep rest with
           | piece :: more => String a piece :: more
           | [] => [String a ""]
           end
  end.

(** White space and line terminators of ECMAScript, in UTF-8: the
    one-byte TAB, LF, VT, FF, CR and SP, ... *)
Definition ws1 (a : ascii) : bool :=
  let n := nat_of_ascii a in
  (((9 <=? n) && (n <=? 13)) || (n =? 32))%nat.

(** ... the two-byte U+00A0, ... *)
Definition ws2 (a b : ascii) : bool :=
  ((nat_of_ascii a =? 194) && (nat_of_ascii b =? 160))%nat.

(** ... and the three-byte U+1680, U+2000 to U+200A, U+2028, U+2029,
    U+202F, U+205F, U+3000 and U+FEFF. *)
Definition ws3 (a b c : ascii) : bool :=
  let x := nat_of_ascii a in
  let y := nat_of_ascii b in
  let z := nat_of_ascii c in
  (((x =? 225) && (y =? 154) && (z =? 128))
   || ((x =? 226) && (y =? 128)
       && (((128 <=? z) && (z <=? 138)) || (z =? 168) || (z =? 169) || (z =? 175)))
   || ((x =? 226) && (y =? 129) && (z =? 159))
   || ((x =? 227) && (y =? 128) && (z =? 128))
   || ((x =? 239) && (y =? 187) && (z =? 191)))%nat.

(** [s.trimStart()]. *)
Fixpoint trimStart (s : string) : string :=
  match s with
  | "" => ""
  | String a r1 =>
      if ws1 a then trimStart r1
      else match r1 with
           | "" => s
           | String b r2 =>
               if ws2 a b then trimStart r2
               else match r2 with
                    | "" => s
                    | String c r3 => if ws3 a b c then trimStart r3 else s
                    end
           end
  end.

(** [s.trimEnd()]: the longest suffix made of white space goes. *)
Fixpoint trimEnd (s : string) : string :=
  match s with
  | "" => ""
  | String a rest => if is_empty (trimStart s) then "" else String a (trimEnd rest)
  end.

(** [s.trim()]. *)
Definition trim (s : string) : string := trimEnd (trimStart s).

Definition hex_digit (n : nat) : ascii :=
  if (n <? 10)%nat then ascii_of_nat (48 + n) else ascii_of_nat (55 + n).

(** The characters [encodeURIComponent] leaves alone: letters, digits
    and [- _ . ! ~ * ' ( )]. *)
Definition uri_unreserved (a : ascii) : bool :=
  let n := nat_of_ascii a in
  (((65 <=? n) && (n <=? 90)) || ((97 <=? n) && (n <=? 122))
   || ((48 <=? n) && (n <=? 57))
   || existsb (Nat.eqb n) [45; 95; 46; 33; 126; 42; 39; 40; 41])%nat.

(** [encodeURIComponent(s)]: every other byte of the UTF-8 form becomes
    a percent sign and two upper-case hexadecimal digits.  (The engine
    throws a URIError on a string with an unpaired surrogate; such a
    string has no UTF-8 form and no counterpart here.) *)
Fixpoint encodeURIComponent (s : string) : string :=
  match s with
  | "" => ""
  | String a rest =>
      if uri_unreserved a then String a (encodeURIComponent rest)
      else
        let n := nat_of_ascii a in
        String "%" (String (hex_digit (n / 16)) (String (hex_digit (n mod 16))
          (encodeURIComponent rest)))
  end.

(** [String(n)] for a non-negative integer such as an array index. *)
Definition of_nat (n : nat) : string := NilZero.string_of_uint (Nat.to_uint n).

End Str.

(** ** escapeHTML (main.js, lines 5-12) *)

Definition escapeHTML (str : string) : string :=
  Str.replace_all "'" "&#039;"
    (Str.replace_all "034" ("&quot;")
      (Str.replace_all ">" "&gt;"
        (Str.replace_all "<" "&lt;"
          (Str.replace_all "&" "&amp;" str)))).

(** ** Values *)

(** What evaluating a piece of the script gives: a value, or an exception.
    The script reads nothing of an exception but its [message]. *)
Inductive outcome (A : Type) : Type :=
| Ok (a : A)
| Throw (message : string).
Arguments Ok {A} a.
Arguments Throw {A} message.

(** The number type of the engine.  The script compares a number with 200,
    tests it for truth and prints it; it does no arithmetic on the numbers
    of a payload. *)
Class JSNumber : Type := {
  number : Type;
  (** [n === 200] *)
  number_is_200 : number -> bool;
  (** [Boolean(n)]: false for zero and NaN *)
  number_truthy : number -> bool;
  (** [String(n)] *)
  number_toString : number -> string
}.

Section Values.
Context {num : JSNumber}.

Unset Elimination Schemes.
(** A value of the script: what [JSON.parse] returns, and [undefined].
    A mapping carries its entries, one for each key, in the order of
    [Object.entries]. *)
Inductive value : Type :=
| JUndefined
| JNull
| JBool (b : bool)
| JNum (n : number)
| JStr (s : string)
| JArr (items : list value)
| JObj (entries : list (string * value)).
Set Elimination Schemes.

Definition String_of_bool (b : bool) : string := if b then "true" else "false".

Definition null_marker : string :=
  "<span class=" ++ Str.dquote ++ "null" ++ Str.dquote ++ ">null</span>".

(** generateHTML (main.js, lines 23-44). *)
Fixpoint generateHTML (obj : value) : string :=
  match obj with
  | JNull | JUndefined => null_marker
  | JBool b => escapeHTML (String_of_bool b)
  | JNum n => escapeHTML (number_toString n)
  | JStr s => escapeHTML s
  | JArr items =>
      let items :=
        Str.join "" (map (fun item => "<li>" ++ generateHTML item ++ "</li>") items) in
      "<ul>" ++ items ++ "</ul>"
  | JObj entries =>
      let rows :=
        Str.join ""
          (map (fun entry =>
                  "<li><strong>" ++ escapeHTML (fst entry) ++ ":</strong> "
                    ++ generateHTML (snd entry) ++ "</li>")
               entries) in
      "<ul>" ++ rows ++ "</ul>"
  end.

(** [typeof v === 'boolean'] *)
Definition is_boolean (v : value) : bool :=
  match v with JBool _ => true | _ => false end.

(** [Array.isArray(v)] *)
Definition isArray (v : value) : bool :=
  match v with JArr _ => true | _ => false end.

(** [v === 200] *)
Definition is_200 (v : value) : bool :=
  match v with JNum n => number_is_200 n | _ => false end.

(** The truth value of [v] in a condition. *)
Definition truthy (v : value) : bool :=
  match v with
  | JUndefined | JNull => false
  | JBool b => b
  | JNum n => number_truthy n
  | JStr s => negb (Str.is_empty s)
  | JArr _ | JObj _ => true
  end.

(** [a || b] *)
Definition or_else (a b : value) : value := if truthy a then a else b.

Fixpoint lookup (key : string) (entries : list (string * value)) : option value :=
  match entries with
  | [] => None
  | (k, v) :: rest => if String.eqb k key then Some v else lookup key rest
  end.

Definition has_key (key : string) (entries : list (string * value)) : bool :=
  match lookup key entries with Some _ => true | None => false end.

End Values.

(** What else the engine and the browser provide. *)
Class Engine {num : JSNumber} : Type := {
  (** [s.toUpperCase()] *)
  toUpperCase : string -> string;
  (** [JSON.parse(text)]; a syntax error is an exception *)
  JSON_parse : string -> outcome value;
  (** message of the TypeError for reading property [key] of [null] or
      [undefined] *)
  cannot_read : value -> string -> string;
  (** message of the TypeError for an object that has no primitive form *)
  cannot_convert : string
}.

Section Script.
Context {num : JSNumber} {engine : Engine}.

(** [v.key] for the property names the script reads ([status], [result],
    [error], [query], [postcode], [outcode], [place_name]): none of them is
    inherited, so on a mapping it is the entry of that name, on any other
    value but [null] and [undefined] it is [undefined]. *)
Definition get (v : value) (key : string) : outcome value :=
  match v with
  | JNull | JUndefined => Throw (cannot_read v key)
  | JObj entries =>
      match lookup key entries with
      | Some x => Ok x
      | None => Ok JUndefined
      end
  | _ => Ok JUndefined
  end.

(** The string form of a value, as a template literal or a DOM text
    property takes it.  A sequence joins the forms of its members with
    commas, [null] and [undefined] members giving nothing.  A mapping is
    [[object Object]], unless it has an entry [toString]: the entry hides
    the inherited method, it is not a function, and the conversion
    fails. *)
Fixpoint ToString (v : value) : outcome string :=
  match v with
  | JUndefined => Ok "undefined"
  | JNull => Ok "null"
  | JBool b => Ok (String_of_bool b)
  | JNum n => Ok (number_toString n)
  | JStr s => Ok s
  | JArr items =>
      (fix join_items (l : list value) : outcome string :=
         match l with
         | [] => Ok ""
         | x :: rest =>
             let first :=
               match x with
               | JNull | JUndefined => Ok ""
               | _ => ToString x
               end in
             match first with
             | Throw m => Throw m
             | Ok sx =>
                 match rest with
                 | [] => Ok sx
                 | _ :: _ =>
                     match join_items rest with
                     | Throw m => Throw m
                     | Ok sr => Ok (sx ++ "," ++ sr)
                     end
                 end
             end
         end) items
  | JObj entries =>
      if has_key "toString" entries then Throw cannot_convert
      else Ok "[object Object]"
  end.

(** ** The page and the network *)

(** A result card: the text of its heading and the markup of its body. *)
Record card : Type := { heading : string; content : string }.

(** The values of the input fields, by element id. *)
Record fields : Type := {
  postcodeInput : string;
  bulkPostcodes : string;
  latitudeInput : string;
  longitudeInput : string;
  bulkGeo : string;
  outcodeInput : string;
  placeCodeInput : string;
  placeQueryInput : string;
  terminatedInput : string;
  scottishInput : string
}.

(** A URL as the script builds it: the text it starts from and the search
    parameters it sets.  What the browser makes of the two when the URL is
    serialised or fetched (dot segments resolved, the query appended) is
    not modelled. *)
Record url : Type := { href : string; searchParams : list (string * string) }.

Definition URL (text : string) : url := {| href := text; searchParams := [] |}.

(** [params.set(name, val)] on the list of search parameters: the first
    parameter of that name takes the value and the others of that name
    go; without one, the parameter is added last. *)
Fixpoint set_param (name val : string) (params : list (string * string))
  : list (string * string) :=
  match params with
  | [] => [(name, val)]
  | p :: rest =>
      if String.eqb (fst p) name
      then (name, val) :: filter (fun q => negb (String.eqb (fst q) name)) rest
      else p :: set_param name val rest
  end.

(** [u.searchParams.set(name, val)] *)
Definition searchParams_set (name val : string) (u : url) : url :=
  {| href := href u; searchParams := set_param name val (searchParams u) |}.

Inductive http_method : Type := GET | POST.

(** A request: [body] is the value whose JSON text is sent. *)
Record request : Type := {
  method : http_method;
  target : url;
  headers : list (string * string);
  body : option value
}.

(** A response: [json] is what reading the body as JSON gives. *)
Record response : Type := {
  status : nat;
  statusText : string;
  json : outcome value
}.

(** [response.ok]: the status is in the range 200-299. *)
Definition ok (r : response) : bool :=
  ((200 <=? status r) && (status r <=? 299))%nat.

(** What [fetch] settles to: a rejection when the call cannot complete, a
    response otherwise. *)
Inductive fetched : Type :=
| Rejected (message : string)
| Resolved (r : response).

Definition network : Type := request -> fetched.

(** The page and the requests sent so far, oldest first. *)
Record world : Type := {
  inputs : fields;
  results : list card;
  sent : list request
}.

Definition set_results (cards : list card) (w : world) : world :=
  {| inputs := inputs w; results := cards; sent := sent w |}.

Definition log_request (req : request) (w : world) : world :=
  {| inputs := inputs w; results := results w; sent := (sent w ++ [req])%list |}.

(** ** Effects *)

Definition M (A : Type) : Type := world -> outcome A * world.

Definition ret {A} (a : A) : M A := fun w => (Ok a, w).

Definition bind {A B} (m : M A) (k : A -> M B) : M B :=
  fun w =>
    match m w with
    | (Ok a, w') => k a w'
    | (Throw e, w') => (Throw e, w')
    end.

Definition throw {A} (message : string) : M A := fun w => (Throw message, w).

(** [try { body } catch (err) { handler(err.message) }] *)
Definition try_catch {A} (body_ : M A) (handler : string -> M A) : M A :=
  fun w =>
    match body_ w with
    | (Ok a, w') => (Ok a, w')
    | (Throw e, w') => handler e w'
    end.

Definition lift {A} (o : outcome A) : M A := fun w => (o, w).

End Script.

Declare Scope script_scope.
Delimit Scope script_scope with script.
Notation "x <- m ;; k" := (bind m (fun x => k))
  (at level 61, m at next level, right associativity) : script_scope.
Notation "m ;; k" := (bind m (fun _ => k))
  (at level 61, right associativity) : script_scope.
Open Scope script_scope.

(** ** The script *)

Definition API_BASE : string := "https://api.postcodes.io".

Section Handlers.
Context {num : JSNumber} {engine : Engine}.

(** What the network answers to each request. *)
Variable net : network.

(** [document.getElementById(id).value] *)
Definition value_of (field : fields -> string) : M string :=
  fun w => (Ok (field (inputs w)), w).

(** clearResults (main.js, lines 49-52). *)
Definition clearResults : M unit :=
  fun w => (Ok tt, set_results [] w).

Definition appendChild (c : card) : M unit :=
  fun w => (Ok tt, set_results (results w ++ [c])%list w).

(** renderCard (main.js, lines 60-71).  The heading takes the title in its
    string form; the card joins the results area last. *)
Definition renderCard (title data : value) : M unit :=
  text <- lift (ToString title) ;;
  appendChild {| heading := text; content := generateHTML data |}.

(** renderError (main.js, lines 78-80). *)
Definition renderError (message : value) : M unit :=
  renderCard (JStr "Error") (JObj [("message", message)]).

(** [await fetch(...)]: the request leaves, then the call settles. *)
Definition fetch (req : request) : M response :=
  fun w =>
    match net req with
    | Rejected message => (Throw message, log_request req w)
    | Resolved r => (Ok r, log_request req w)
    end.

(** getJSON (main.js, lines 88-94). *)
Definition getJSON (u : url) : M value :=
  response <- fetch {| method := GET; target := u; headers := []; body := None |} ;;
  if negb (ok response) then
    throw (Str.of_nat (status response) ++ " " ++ statusText response)
  else lift (json response).

(** postJSON (main.js, lines 103-115). *)
Definition postJSON (u : url) (payload : value) : M value :=
  response <- fetch {| method := POST; target := u;
                       headers := [("Content-Type", "application/json")];
                       body := Some payload |} ;;
  if negb (ok response) then
    throw (Str.of_nat (status response) ++ " " ++ statusText response)
  else lift (json response).

(** [items.forEach((item, idx) => f item idx)], from index [idx] on. *)
Fixpoint forEach (f : value -> nat -> M unit) (items : list value) (idx : nat)
  : M unit :=
  match items with
  | [] => ret tt
  | item :: rest => f item idx ;; forEach f rest (S idx)
  end.

(** [data.status === 200 && Array.isArray(data.result) && data.result.length] *)
Definition nonempty_result (data : value) : M (option (list value)) :=
  status_ <- lift (get data "status") ;;
  if is_200 status_ then
    result <- lift (get data "result") ;;
    match result with
    | JArr (item :: rest) => ret (Some (item :: rest))
    | _ => ret None
    end
  else ret None.

(** [data.status === 200 && Array.isArray(data.result)] *)
Definition sequence_result (data : value) : M (option (list value)) :=
  status_ <- lift (get data "status") ;;
  if is_200 status_ then
    result <- lift (get data "result") ;;
    match result with
    | JArr items => ret (Some items)
    | _ => ret None
    end
  else ret None.

(** Postcode lookup (main.js, lines 122-136). *)
Definition lookupPostcodeBtn : M unit :=
  raw <- value_of postcodeInput ;;
  let postcode := Str.trim raw in
  if Str.is_empty postcode then ret tt else
  clearResults ;;
  try_catch
    (data <- getJSON (URL (API_BASE ++ "/postcodes/" ++ Str.encodeURIComponent postcode)) ;;
     status_ <- lift (get data "status") ;;
     if is_200 status_ then
       result <- lift (get data "result") ;;
       renderCard (JStr ("Postcode: " ++ toUpperCase postcode)) result
     else
       error <- lift (get data "error") ;;
       renderError (or_else error (JStr ("No data found for " ++ postcode))))
    (fun message => renderError (JStr message)).

(** Postcode validation (main.js, lines 139-157). *)
Definition validatePostcodeBtn : M unit :=
  raw <- value_of postcodeInput ;;
  let postcode := Str.trim raw in
  if Str.is_empty postcode then ret tt else
  clearResults ;;
  try_catch
    (data <- getJSON (URL (API_BASE ++ "/postcodes/" ++ Str.encodeURIComponent postcode
                             ++ "/validate")) ;;
     result <- lift (get data "result") ;;
     if is_boolean result then
       renderCard (JStr ("Validate Postcode: " ++ toUpperCase postcode))
         (JObj [("postcode", JStr (toUpperCase postcode)); ("valid", result)])
     else renderError (JStr "Unexpected validation response"))
    (fun message => renderError (JStr message)).

(** Postcode query (main.js, lines 160-179). *)
Definition queryPostcodeBtn : M unit :=
  raw <- value_of postcodeInput ;;
  let query := Str.trim raw in
  if Str.is_empty query then ret tt else
  clearResults ;;
  try_catch
    (let url_ := searchParams_set "limit" "20"
                   (searchParams_set "q" query (URL (API_BASE ++ "/postcodes"))) in
     data <- getJSON url_ ;;
     found <- nonempty_result data ;;
     match found with
     | Some items =>
         forEach (fun item idx =>
                    field <- lift (get item "postcode") ;;
                    text <- lift (ToString field) ;;
                    renderCard (JStr ("Match " ++ Str.of_nat (idx + 1) ++ ": " ++ text)) item)
                 items 0
     | None => renderError (JStr ("No matches found for query '" ++ query ++ "'."))
     end)
    (fun message => renderError (JStr message)).

(** [textarea.value.split(/\n|,/).map((s) => s.trim()).filter(Boolean)] *)
Definition bulk_lines (text : string) : list string :=
  filter (fun s => negb (Str.is_empty s))
    (map Str.trim
       (Str.split (fun a => (Ascii.eqb a "010" || Ascii.eqb a ",")%bool) text)).

(** Bulk postcode lookup (main.js, lines 182-208). *)
Definition bulkLookupBtn : M unit :=
  text <- value_of bulkPostcodes ;;
  let lines := bulk_lines text in
  if (length lines =? 0)%nat then ret tt else
  if (100 <? length lines)%nat then
    renderError (JStr "Bulk lookup is limited to 100 postcodes.")
  else
  clearResults ;;
  try_catch
    (data <- postJSON (URL (API_BASE ++ "/postcodes"))
               (JObj [("postcodes", JArr (map JStr lines))]) ;;
     found <- sequence_result data ;;
     match found with
     | Some items =>
         forEach (fun item idx =>
                    title <- lift (get item "query") ;;
                    result <- lift (get item "result") ;;
                    if truthy result then
                      text <- lift (ToString title) ;;
                      renderCard (JStr ("Bulk Result for " ++ text)) result
                    else
                      text <- lift (ToString title) ;;
                      renderCard (JStr ("Bulk Result for " ++ text))
                        (JObj [("error", JStr "Not found")]))
                 items 0
     | None => renderError (JStr "Unexpected bulk lookup response.")
     end)
    (fun message => renderError (JStr message)).

(** Random postcode (main.js, lines 211-229). *)
Definition randomPostcodeBtn : M unit :=
  raw <- value_of postcodeInput ;;
  let outcodeInput_ := Str.trim raw in
  clearResults ;;
  try_catch
    (let url_ := URL (API_BASE ++ "/random/postcodes") in
     let url_ := if Str.is_empty outcodeInput_ then url_
                 else searchParams_set "outcode" outcodeInput_ url_ in
     data <- getJSON url_ ;;
     status_ <- lift (get data "status") ;;
     if is_200 status_ then
       result <- lift (get data "result") ;;
       renderCard (JStr "Random Postcode") result
     else renderError (JStr "Failed to retrieve random postcode."))
    (fun message => renderError (JStr message)).

(** Autocomplete (main.js, lines 232-248). *)
Definition autocompleteBtn : M unit :=
  raw <- value_of postcodeInput ;;
  let partial := Str.trim raw in
  if Str.is_empty partial then ret tt else
  clearResults ;;
  try_catch
    (let url_ := searchParams_set "limit" "20"
                   (URL (API_BASE ++ "/postcodes/" ++ Str.encodeURIComponent partial
                           ++ "/autocomplete")) in
     data <- getJSON url_ ;;
     found <- nonempty_result data ;;
     match found with
     | Some items => renderCard (JStr ("Autocomplete for '" ++ partial ++ "'")) (JArr items)
     | None => renderError (JStr ("No autocomplete results for '" ++ partial ++ "'."))
     end)
    (fun message => renderError (JStr message)).

(** Nearest postcodes (main.js, lines 251-269). *)
Definition nearestPostcodeBtn : M unit :=
  raw <- value_of postcodeInput ;;
  let postcode := Str.trim raw in
  if Str.is_empty postcode then ret tt else
  clearResults ;;
  try_catch
    (let url_ := searchParams_set "limit" "10"
                   (URL (API_BASE ++ "/postcodes/" ++ Str.encodeURIComponent postcode
                           ++ "/nearest")) in
     data <- getJSON url_ ;;
     found <- nonempty_result data ;;
     match found with
     | Some items =>
         forEach (fun item idx =>
                    field <- lift (get item "postcode") ;;
                    text <- lift (ToString field) ;;
                    renderCard (JStr ("Nearest " ++ Str.of_nat (idx + 1) ++ ": " ++ text)) item)
                 items 0
     | None => renderError (JStr ("No nearest postcodes found for '" ++ postcode ++ "'."))
     end)
    (fun message => renderError (JStr message)).

(** Reverse geocode (main.js, lines 272-294). *)
Definition reverseGeocodeBtn : M unit :=
  raw_lat <- value_of latitudeInput ;;
  let lat := Str.trim raw_lat in
  raw_lon <- value_of longitudeInput ;;
  let lon := Str.trim raw_lon in
  if (Str.is_empty lat || Str.is_empty lon)%bool then ret tt else
  clearResults ;;
  try_catch
    (let url_ := searchParams_set "radius" "200"
                   (searchParams_set "limit" "10"
                      (searchParams_set "lon" lon
                         (searchParams_set "lat" lat (URL (API_BASE ++ "/postcodes"))))) in
     data <- getJSON url_ ;;
     found <- nonempty_result data ;;
     match found with
     | Some items =>
         forEach (fun item idx =>
                    field <- lift (get item "postcode") ;;
                    text <- lift (ToString field) ;;
                    renderCard (JStr ("Reverse Geocode " ++ Str.of_nat (idx + 1) ++ ": " ++ text))
                      item)
                 items 0
     | None => renderError (JStr "No postcodes found for the provided coordinates.")
     end)
    (fun message => renderError (JStr message)).

(** Bulk reverse geocode (main.js, lines 297-323). *)
Definition bulkReverseBtn : M unit :=
  raw <- value_of bulkGeo ;;
  let input := Str.trim raw in
  if Str.is_empty input then ret tt else
  parsed <-
    try_catch
      (geolocations <- lift (JSON_parse input) ;;
       if negb (isArray geolocations) then throw "Input must be a JSON array"
       else ret (Some geolocations))
      (fun _ =>
         renderError (JStr "Invalid JSON for bulk reverse geocode.") ;;
         ret None) ;;
  match parsed with
  | None => ret tt
  | Some geolocations =>
      clearResults ;;
      try_catch
        (data <- postJSON (URL (API_BASE ++ "/postcodes"))
                   (JObj [("geolocations", geolocations)]) ;;
         found <- sequence_result data ;;
         match found with
         | Some items =>
             forEach (fun item idx =>
                        queryCoords <- lift (get item "query") ;;
                        let heading_ := "Bulk Reverse Result " ++ Str.of_nat (idx + 1) in
                        result <- lift (get item "result") ;;
                        renderCard (JStr heading_) result)
                     items 0
         | None => renderError (JStr "Unexpected bulk reverse geocode response.")
         end)
        (fun message => renderError (JStr message))
  end.

(** Reverse geocode to outcodes (main.js, lines 326-348). *)
Definition reverseOutcodeBtn : M unit :=
  raw_lat <- value_of latitudeInput ;;
  let lat := Str.trim raw_lat in
  raw_lon <- value_of longitudeInput ;;
  let lon := Str.trim raw_lon in
  if (Str.is_empty lat || Str.is_empty lon)%bool then ret tt else
  clearResults ;;
  try_catch
    (let url_ := searchParams_set "radius" "5000"
                   (searchParams_set "limit" "10"
                      (searchParams_set "lon" lon
                         (searchParams_set "lat" lat (URL (API_BASE ++ "/outcodes"))))) in
     data <- getJSON url_ ;;
     found <- nonempty_result data ;;
     match found with
     | Some items =>
         forEach (fun item idx =>
                    field <- lift (get item "outcode") ;;
                    text <- lift (ToString field) ;;
                    renderCard (JStr ("Reverse Outcode " ++ Str.of_nat (idx + 1) ++ ": " ++ text))
                      item)
                 items 0
     | None => renderError (JStr "No outcodes found for the provided coordinates.")
     end)
    (fun message => renderError (JStr message)).

(** Outcode lookup (main.js, lines 351-365). *)
Definition lookupOutcodeBtn : M unit :=
  raw <- value_of outcodeInput ;;
  let outcode := Str.trim raw in
  if Str.is_empty outcode then ret tt else
  clearResults ;;
  try_catch
    (data <- getJSON (URL (API_BASE ++ "/outcodes/" ++ Str.encodeURIComponent outcode)) ;;
     status_ <- lift (get data "status") ;;
     if is_200 status_ then
       result <- lift (get data "result") ;;
       renderCard (JStr ("Outcode: " ++ toUpperCase outcode)) result
     else
       error <- lift (get data "error") ;;
       renderError (or_else error (JStr ("No data found for outcode '" ++ outcode ++ "'."))))
    (fun message => renderError (JStr message)).

(** Nearest outcodes (main.js, lines 368-386). *)
Definition nearestOutcodeBtn : M unit :=
  raw <- value_of outcodeInput ;;
  let outcode := Str.trim raw in
  if Str.is_empty outcode then ret tt else
  clearResults ;;
  try_catch
    (let url_ := searchParams_set "limit" "10"
                   (URL (API_BASE ++ "/outcodes/" ++ Str.encodeURIComponent outcode
                           ++ "/nearest")) in
     data <- getJSON url_ ;;
     found <- nonempty_result data ;;
     match found with
     | Some items =>
         forEach (fun item idx =>
                    field <- lift (get item "outcode") ;;
                    text <- lift (ToString field) ;;
                    renderCard (JStr ("Nearest Outcode " ++ Str.of_nat (idx + 1) ++ ": " ++ text))
                      item)
                 items 0
     | None => renderError (JStr ("No nearest outcodes found for '" ++ outcode ++ "'."))
     end)
    (fun message => renderError (JStr message)).

(** Place lookup (main.js, lines 389-403). *)
Definition lookupPlaceBtn : M unit :=
  raw <- value_of placeCodeInput ;;
  let code := Str.trim raw in
  if Str.is_empty code then ret tt else
  clearResults ;;
  try_catch
    (data <- getJSON (URL (API_BASE ++ "/places/" ++ Str.encodeURIComponent code)) ;;
     status_ <- lift (get data "status") ;;
     if is_200 status_ then
       result <- lift (get data "result") ;;
       renderCard (JStr ("Place Code: " ++ code)) result
     else
       error <- lift (get data "error") ;;
       renderError (or_else error (JStr ("No place found for code '" ++ code ++ "'."))))
    (fun message => renderError (JStr message)).

(** Place query (main.js, lines 406-427). *)
Definition queryPlaceBtn : M unit :=
  raw <- value_of placeQueryInput ;;
  let query := Str.trim raw in
  if Str.is_empty query then ret tt else
  clearResults ;;
  try_catch
    (let url_ := searchParams_set "limit" "20"
                   (searchParams_set "q" query (URL (API_BASE ++ "/places"))) in
     data <- getJSON url_ ;;
     found <- nonempty_result data ;;
     match found with
     | Some items =>
         forEach (fun item idx =>
                    place_name <- lift (get item "place_name") ;;
                    let heading_ :=
                      if truthy place_name then place_name
                      else JStr ("Place " ++ Str.of_nat (idx + 1)) in
                    renderCard heading_ item)
                 items 0
     | None => renderError (JStr ("No places found matching '" ++ query ++ "'."))
     end)
    (fun message => renderError (JStr message)).

(** Random place (main.js, lines 430-442). *)
Definition randomPlaceBtn : M unit :=
  clearResults ;;
  try_catch
    (data <- getJSON (URL (API_BASE ++ "/random/places")) ;;
     status_ <- lift (get data "status") ;;
     if is_200 status_ then
       result <- lift (get data "result") ;;
       renderCard (JStr "Random Place") result
     else renderError (JStr "Failed to retrieve random place."))
    (fun message => renderError (JStr message)).

(** Terminated postcode lookup (main.js, lines 445-459). *)
Definition terminatedLookupBtn : M unit :=
  raw <- value_of terminatedInput ;;
  let postcode := Str.trim raw in
  if Str.is_empty postcode then ret tt else
  clearResults ;;
  try_catch
    (data <- getJSON (URL (API_BASE ++ "/terminated_postcodes/"
                             ++ Str.encodeURIComponent postcode)) ;;
     status_ <- lift (get data "status") ;;
     if is_200 status_ then
       result <- lift (get data "result") ;;
       renderCard (JStr ("Terminated Postcode: " ++ toUpperCase postcode)) result
     else
       error <- lift (get data "error") ;;
       renderError (or_else error (JStr ("No terminated data for '" ++ postcode ++ "'."))))
    (fun message => renderError (JStr message)).

(** Scottish postcode lookup (main.js, lines 462-476). *)
Definition scottishLookupBtn : M unit :=
  raw <- value_of scottishInput ;;
  let postcode := Str.trim raw in
  if Str.is_empty postcode then ret tt else
  clearResults ;;
  try_catch
    (data <- getJSON (URL (API_BASE ++ "/scotland/postcodes/"
                             ++ Str.encodeURIComponent postcode)) ;;
     status_ <- lift (get data "status") ;;
     if is_200 status_ then
       result <- lift (get data "result") ;;
       renderCard (JStr ("Scottish Postcode: " ++ toUpperCase postcode)) result
     else
       error <- lift (get data "error") ;;
       renderError (or_else error (JStr ("No Scottish data for '" ++ postcode ++ "'."))))
    (fun message => renderError (JStr message)).

(** The buttons of the page, by element id. *)
Inductive button : Type :=
| LookupPostcode | ValidatePostcode | QueryPostcode | BulkLookup
| RandomPostcode | Autocomplete | NearestPostcode | ReverseGeocode
| BulkReverse | ReverseOutcode | LookupOutcode | NearestOutcode
| LookupPlace | QueryPlace | RandomPlace | TerminatedLookup | ScottishLookup.

(** init (main.js, lines 120-477): the click listener of each button. *)
Definition init (b : button) : M unit :=
  match b with
  | LookupPostcode => lookupPostcodeBtn
  | ValidatePostcode => validatePostcodeBtn
  | QueryPostcode => queryPostcodeBtn
  | BulkLookup => bulkLookupBtn
  | RandomPostcode => randomPostcodeBtn
  | Autocomplete => autocompleteBtn
  | NearestPostcode => nearestPostcodeBtn
  | ReverseGeocode => reverseGeocodeBtn
  | BulkReverse => bulkReverseBtn
  | ReverseOutcode => reverseOutcodeBtn
  | LookupOutcode => lookupOutcodeBtn
  | NearestOutcode => nearestOutcodeBtn
  | LookupPlace => lookupPlaceBtn
  | QueryPlace => queryPlaceBtn
  | RandomPlace => randomPlaceBtn
  | TerminatedLookup => terminatedLookupBtn
  | ScottishLookup => scottishLookupBtn
  end.

End Handlers.

(** ** A host to run the script on

    Integers for numbers, upper-casing of the ASCII letters, the error
    texts of V8, and a [JSON.parse] for the fragment of JSON without
    fractions, exponents and escape sequences.  The theorems below hold
    for every host; this one evaluates the script on concrete pages. *)

Module Sample.

Definition number_of_digits (negative : bool) (digits : string) : Z :=
  let n := Z.of_N (fold_left (fun acc a => (acc * 10 + (N_of_ascii a - 48))%N)
                             (list_ascii_of_string digits) 0%N) in
  if negative then Z.opp n else n.

#[export] Instance numbers : JSNumber := {|
  number := Z;
  number_is_200 := Z.eqb 200;
  number_truthy := fun n => negb (Z.eqb n 0);
  number_toString := fun n => NilZero.string_of_int (Z.to_int n)
|}.

Definition upper (a : ascii) : ascii :=
  let n := nat_of_ascii a in
  if ((97 <=? n) && (n <=? 122))%nat then ascii_of_nat (n - 32) else a.

Fixpoint toUpperCase_ascii (s : string) : string :=
  match s with
  | "" => ""
  | String a rest => String (upper a) (toUpperCase_ascii rest)
  end.

Definition json_space (a : ascii) : bool :=
  existsb (Nat.eqb (nat_of_ascii a)) [32; 9; 10; 13].

Fixpoint skip_space (s : string) : string :=
  match s with
  | String a rest => if json_space a then skip_space rest else s
  | "" => ""
  end.

Definition is_digit (a : ascii) : bool :=
  let n := nat_of_ascii a in ((48 <=? n) && (n <=? 57))%nat.

(** The longest prefix of characters satisfying [p], and the rest. *)
Fixpoint span (p : ascii -> bool) (s : string) : string * string :=
  match s with
  | String a rest =>
      if p a then let (taken, tail) := span p rest in (String a taken, tail)
      else ("", s)
  | "" => ("", "")
  end.

Definition strip_prefix (word s : string) : option string :=
  if String.prefix word s
  then Some (String.substring (String.length word)
               (String.length s - String.length word) s)
  else None.

Definition parser (A : Type) : Type := string -> option (A * string).

(** A string literal, after its opening quote. *)
Definition parse_string_tail : parser string :=
  fun s =>
    let (text, tail) :=
      span (fun a => negb (Ascii.eqb a "034" || Ascii.eqb a "\")%bool) s in
    match tail with
    | String "034" rest => Some (text, rest)
    | _ => None
    end.

(** The members of a sequence after the first, up to the bracket. *)
Fixpoint parse_more_items (fuel : nat) (item : parser value) : parser (list value) :=
  fun s =>
    match fuel with
    | O => None
    | S fuel' =>
        match skip_space s with
        | String "]" rest => Some ([], rest)
        | String "," rest =>
            match item rest with
            | Some (v, tail) =>
                match parse_more_items fuel' item tail with
                | Some (vs, tail') => Some (v :: vs, tail')
                | None => None
                end
            | None => None
            end
        | _ => None
        end
    end.

(** The entries of a mapping after the first, up to the brace. *)
Fixpoint parse_more_entries (fuel : nat) (item : parser value)
  : parser (list (string * value)) :=
  fun s =>
    match fuel with
    | O => None
    | S fuel' =>
        match skip_space s with
        | String "}" rest => Some ([], rest)
        | String "," rest =>
            match skip_space rest with
            | String "034" rest1 =>
                match parse_string_tail rest1 with
                | Some (key, rest2) =>
                    match skip_space rest2 with
                    | String ":" rest3 =>
                        match item rest3 with
                        | Some (v, tail) =>
                            match parse_more_entries fuel' item tail with
                            | Some (es, tail') => Some ((key, v) :: es, tail')
                            | None => None
                            end
                        | None => None
                        end
                    | _ => None
                    end
                | None => None
                end
            | _ => None
            end
        | _ => None
        end
    end.

Fixpoint parse_value (fuel : nat) : parser value :=
  fun s =>
    match fuel with
    | O => None
    | S fuel' =>
        let s := skip_space s in
        match s with
        | String "[" rest =>
            match skip_space rest with
            | String "]" tail => Some (JArr [], tail)
            | _ =>
                match parse_more_items fuel' (parse_value fuel') (String "," rest) with
                | Some (vs, tail) => Some (JArr vs, tail)
                | None => None
                end
            end
        | String "{" rest =>
            match skip_space rest with
            | String "}" tail => Some (JObj [], tail)
            | _ =>
                match parse_more_entries fuel' (parse_value fuel') (String "," rest) with
                | Some (es, tail) => Some (JObj es, tail)
                | None => None
                end
            end
        | String "034" rest =>
            match parse_string_tail rest with
            | Some (text, tail) => Some (JStr text, tail)
            | None => None
            end
        | String "-" rest =>
            match span is_digit rest with
            | ("", _) => None
            | (digits, tail) => Some (JNum (number_of_digits true digits), tail)
            end
        | String a _ =>
            if is_digit a then
              let (digits, tail) := span is_digit s in
              Some (JNum (number_of_digits false digits), tail)
            else
              match strip_prefix "null" s, strip_prefix "true" s, strip_prefix "false" s with
              | Some tail, _, _ => Some (JNull, tail)
              | _, Some tail, _ => Some (JBool true, tail)
              | _, _, Some tail => Some (JBool false, tail)
              | _, _, _ => None
              end
        | "" => None
        end
    end.

Definition JSON_parse_fragment (text : string) : outcome value :=
  match parse_value (S (String.length text)) text with
  | Some (v, tail) =>
      if Str.is_empty (skip_space tail) then Ok v
      else Throw "Unexpected non-whitespace character after JSON"
  | None => Throw "Unexpected token in JSON"
  end.

#[export] Instance engine : Engine := {|
  toUpperCase := toUpperCase_ascii;
  JSON_parse := JSON_parse_fragment;
  cannot_read := fun v key =>
    "Cannot read properties of "
      ++ match v with JNull => "null" | _ => "undefined" end
      ++ " (reading '" ++ key ++ "')";
  cannot_convert := "Cannot convert object to primitive value"
|}.


(** A page with [cards] on display and nothing sent yet. *)
Definition page (i : fields) (cards : list card) : world :=
  {| inputs := i; results := cards; sent := [] |}.

(** A network that answers every request with [200 OK] and [data]. *)
Definition answering (data : value) : network :=
  fun _ => Resolved {| status := 200; statusText := "OK"; json := Ok data |}.

(** The number [z] as a value. *)
Definition int (z : Z) : value := @JNum numbers z.

(** A success envelope around [result]. *)
Definition success (result : value) : value :=
  JObj [("status", int 200); ("result", result)].

(** Pages with one field filled in. *)
Definition postcode_page (text : string) (cards : list card) : world :=
  page {| postcodeInput := text; bulkPostcodes := ""; latitudeInput := "";
          longitudeInput := ""; bulkGeo := ""; outcodeInput := "";
          placeCodeInput := ""; placeQueryInput := ""; terminatedInput := "";
          scottishInput := "" |} cards.

Definition bulk_page (text : string) (cards : list card) : world :=
  page {| postcodeInput := ""; bulkPostcodes := text; latitudeInput := "";
          longitudeInput := ""; bulkGeo := ""; outcodeInput := "";
          placeCodeInput := ""; placeQueryInput := ""; terminatedInput := "";
          scottishInput := "" |} cards.

Definition outcode_page (text : string) (cards : list card) : world :=
  page {| postcodeInput := ""; bulkPostcodes := ""; latitudeInput := "";
          longitudeInput := ""; bulkGeo := ""; outcodeInput := text;
          placeCodeInput := ""; placeQueryInput := ""; terminatedInput := "";
          scottishInput := "" |} cards.

Definition geo_page (text : string) (cards : list card) : world :=
  page {| postcodeInput := ""; bulkPostcodes := ""; latitudeInput := "";
          longitudeInput := ""; bulkGeo := text; outcodeInput := "";
          placeCodeInput := ""; placeQueryInput := ""; terminatedInput := "";
          scottishInput := "" |} cards.

(** [n] entries for the bulk lookup, separated by commas. *)
Definition entries (n : nat) : string := Str.join "," (repeat "SW1A 1AA" n).

(** A card left on display by an earlier click. *)
Definition earlier_card : card :=
  {| heading := "Random Place"; content := "<ul></ul>" |}.

(** A network that answers [200 OK] with a body that is not JSON. *)
Definition not_json : network :=
  fun _ => Resolved {| status := 200; statusText := "OK";
                       json := Throw "Unexpected token < in JSON at position 0" |}.

Definition two_postcodes : list value := [JStr "SW1A 1AA"; JStr "SW1A 1AB"].

Definition two_matches : list value :=
  [JObj [("postcode", JStr "SW1A 1AA"); ("country", JStr "England")];
   JObj [("postcode", JStr "SW1A 1AB"); ("country", JStr "England")]].

Definition null_then_match : list value :=
  [JNull; JObj [("postcode", JStr "SW1A 1AA")]].

(** A mapping with an entry [toString]: it has no string form. *)
Definition no_string_form : value := JObj [("toString", JStr "SW1A 1AA")].

Definition untitled_match : list value := [JObj [("postcode", no_string_form)]].

Definition untitled_bulk_item : list value :=
  [JObj [("query", no_string_form); ("result", JObj [("country", JStr "England")])]].

Definition bulk_items : list value :=
  [JObj [("query", JStr "SW1A 1AA");
         ("result", JObj [("country", JStr "England")])];
   JObj [("query", JStr "ZZ99 9ZZ"); ("result", JNull)]].

Definition null_then_bulk_item : list value :=
  [JNull;
   JObj [("query", JStr "SW1A 1AA");
         ("result", JObj [("country", JStr "England")])]].

(** A network that answers every request with [404 Not Found] and
    [data]. *)
Definition not_found (data : value) : network :=
  fun _ => Resolved {| status := 404; statusText := "Not Found"; json := Ok data |}.

(** A failure envelope with the API's message. *)
Definition failure (message : string) : value :=
  JObj [("status", int 404); ("error", JStr message)].

Definition match_null_match : list value :=
  [JObj [("postcode", JStr "SW1A 1AA")]; JNull; JObj [("postcode", JStr "SW1A 1AB")]].

Definition reverse_items : list value :=
  [JObj [("query", JObj [("longitude", int 0); ("latitude", int 51)]);
         ("result", JArr [JObj [("postcode", JStr "SW1A 1AA")]])];
   JObj [("query", JObj [("longitude", int 1); ("latitude", int 52)]);
         ("result", JNull)]].

End Sample.

(** ** Vocabulary of the statements *)

(** *** Escaped text *)

(** What [escapeHTML] makes of one character. *)
Definition escape_char (a : ascii) : string :=
  if Ascii.eqb a "&" then "&amp;"
  else if Ascii.eqb a "<" then "&lt;"
  else if Ascii.eqb a ">" then "&gt;"
  else if Ascii.eqb a "034" then "&quot;"
  else if Ascii.eqb a "'" then "&#039;"
  else String a "".

Fixpoint escape_each (s : string) : string :=
  match s with
  | "" => ""
  | String a rest => escape_char a ++ escape_each rest
  end.

(** The five reserved characters. *)
Definition reserved (a : ascii) : bool :=
  existsb (Ascii.eqb a) ["&"; "<"; ">"; "034"; "'"]%char.

(** The reserved characters that delimit markup: all but the ampersand. *)
Definition delimiter (a : ascii) : bool :=
  existsb (Ascii.eqb a) ["<"; ">"; "034"; "'"]%char.

(** The character references [escapeHTML] writes, after their ampersand. *)
Definition references : list string := ["amp;"; "lt;"; "gt;"; "quot;"; "#039;"].

(** The tags of the renderer's templates, after their opening bracket. *)
Definition template_tags : list string :=
  ["ul>"; "/ul>"; "li>"; "/li>"; "strong>"; "/strong>";
   "span class=" ++ Str.dquote ++ "null" ++ Str.dquote ++ ">"; "/span>"].

(** A scan of markup, character by character: in text, inside one of the
    [pending] continuations of a tag or reference, or past a reserved
    character that belongs to neither. *)
Inductive scan_state : Type :=
| Text
| Within (pending : list string)
| Stray.

Definition advance (a : ascii) (pending : list string) : list string :=
  flat_map (fun p => match p with
                     | String b rest => if Ascii.eqb a b then [rest] else []
                     | "" => []
                     end) pending.

Definition settle (pending : list string) : scan_state :=
  if existsb Str.is_empty pending then Text
  else match pending with
       | [] => Stray
       | _ :: _ => Within pending
       end.

Definition feed (tags : list string) (st : scan_state) (a : ascii) : scan_state :=
  match st with
  | Stray => Stray
  | Within pending => settle (advance a pending)
  | Text =>
      if Ascii.eqb a "<" then settle tags
      else if Ascii.eqb a "&" then settle references
      else if reserved a then Stray
      else Text
  end.

Fixpoint scan (tags : list string) (st : scan_state) (s : string) : scan_state :=
  match s with
  | "" => st
  | String a rest => scan tags (feed tags st a) rest
  end.

(** Every reserved character of [s] is part of an occurrence of one of
    [tags] or of a character reference. *)
Definition well_escaped (tags : list string) (s : string) : bool :=
  match scan tags Text s with
  | Text => true
  | _ => false
  end.

(** The characters of [s] that satisfy [p], in order. *)
Fixpoint keep (p : ascii -> bool) (s : string) : string :=
  match s with
  | "" => ""
  | String a rest => if p a then String a (keep p rest) else keep p rest
  end.

Section Skeleton.
Context {num : JSNumber}.

(** The shape of a value: every key and every string, number and boolean
    replaced by the empty string. *)
Fixpoint blank (v : value) : value :=
  match v with
  | JUndefined => JUndefined
  | JNull => JNull
  | JBool _ | JNum _ | JStr _ => JStr ""
  | JArr items => JArr (map blank items)
  | JObj entries => JObj (map (fun entry => ("", blank (snd entry))) entries)
  end.
End Skeleton.

(** *** Reading markup back *)

(** The five character references, after their ampersand, and the
    characters they stand for. *)
Definition reference_table : list (string * ascii) :=
  [("amp;", "&"%char); ("lt;", "<"%char); ("gt;", ">"%char); ("quot;", "034"%char);
   ("#039;", "'"%char)].

(** Where a reader of markup is: in text, inside a tag, or inside a
    character reference with the [pending] ends of the references it may
    still be. *)
Inductive reader : Type :=
| InText
| InTag
| InReference (pending : list (string * ascii)).

Definition follow (a : ascii) (pending : list (string * ascii)) : list (string * ascii) :=
  flat_map (fun p => match fst p with
                     | String b rest => if Ascii.eqb a b then [(rest, snd p)] else []
                     | "" => []
                     end) pending.

Definition completed (pending : list (string * ascii)) : option ascii :=
  match find (fun p => Str.is_empty (fst p)) pending with
  | Some p => Some (snd p)
  | None => None
  end.

(** One character read: where the reader is then, and the text it
    shows for it.  A tag shows nothing, a reference shows its character
    once complete, any other character shows itself.  (A reference that
    is none of the five shows nothing: markup that is [well_escaped] has
    none.) *)
Definition read_step (st : reader) (a : ascii) : reader * string :=
  match st with
  | InText =>
      if Ascii.eqb a "<" then (InTag, "")
      else if Ascii.eqb a "&" then (InReference reference_table, "")
      else (InText, String a "")
  | InTag => if Ascii.eqb a ">" then (InText, "") else (InTag, "")
  | InReference pending =>
      match completed (follow a pending) with
      | Some c => (InText, String c "")
      | None =>
          match follow a pending with
          | [] => (InText, "")
          | next => (InReference next, "")
          end
      end
  end.

Fixpoint read (st : reader) (s : string) : reader * string :=
  match s with
  | "" => (st, "")
  | String a rest =>
      let (st', shown) := read_step st a in
      let (st'', shown') := read st' rest in
      (st'', shown ++ shown')
  end.

(** The text a piece of markup shows: its tags removed, its character
    references decoded. *)
Definition text_content (s : string) : string := snd (read InText s).

(** [s] is whole markup (no tag or reference left open) showing [t]. *)
Definition shows (s t : string) : Prop := read InText s = (InText, t).

Section Shown.
Context {num : JSNumber}.

(** The text of a value as its markup is meant to show it: every key and
    every leaf as it is, character for character, a key followed by a
    colon and a space, [null] for no value. *)
Fixpoint shown_text (v : value) : string :=
  match v with
  | JUndefined | JNull => "null"
  | JBool b => String_of_bool b
  | JNum n => number_toString n
  | JStr s => s
  | JArr items => Str.join "" (map shown_text items)
  | JObj entries =>
      Str.join "" (map (fun entry => fst entry ++ ": " ++ shown_text (snd entry)) entries)
  end.
End Shown.

(** *** White space *)

(** Strings made of white space only. *)
Inductive all_space : string -> Prop :=
| space_nil : all_space ""
| space_one a rest :
    Str.ws1 a = true -> all_space rest -> all_space (String a rest)
| space_two a b rest :
    Str.ws2 a b = true -> all_space rest -> all_space (String a (String b rest))
| space_three a b c rest :
    Str.ws3 a b c = true -> all_space rest ->
    all_space (String a (String b (String c rest))).

(** The separators of the bulk lookup's entry list: line feed and comma. *)
Definition entry_separator (a : ascii) : bool :=
  (Ascii.eqb a "010" || Ascii.eqb a ",")%bool.

(** *** Pages and cards *)

Section Statements.
Context {num : JSNumber} {engine : Engine}.

(** The card [renderError] adds. *)
Definition error_card (message : value) : card :=
  {| heading := "Error"; content := generateHTML (JObj [("message", message)]) |}.

Definition add_cards (cards : list card) (w : world) : world :=
  set_results (results w ++ cards)%list w.

(** A network on which no call completes. *)
Definition offline : network := fun _ => Rejected "".

(** The request a click on [b] sends from a page whose fields are [i], if
    it sends one: what the listener logs on a fresh page. *)
Definition outgoing (b : button) (i : fields) : option request :=
  hd_error (sent (snd (init offline b {| inputs := i; results := []; sent := [] |}))).

(** The input fields a listener requires. *)
Definition required_fields (b : button) : list (fields -> string) :=
  match b with
  | LookupPostcode | ValidatePostcode | QueryPostcode | Autocomplete
  | NearestPostcode => [postcodeInput]
  | BulkLookup => [bulkPostcodes]
  | ReverseGeocode | ReverseOutcode => [latitudeInput; longitudeInput]
  | BulkReverse => [bulkGeo]
  | LookupOutcode | NearestOutcode => [outcodeInput]
  | LookupPlace => [placeCodeInput]
  | QueryPlace => [placeQueryInput]
  | TerminatedLookup => [terminatedInput]
  | ScottishLookup => [scottishInput]
  | RandomPostcode | RandomPlace => []
  end.

(** [JSON.parse] succeeded and gave a sequence. *)
Definition parses_to_sequence (o : outcome value) : bool :=
  match o with
  | Ok (JArr _) => true
  | _ => false
  end.

(** The input the page itself turns down before any request, and the
    message it shows then. *)
Definition turned_down (b : button) (i : fields) : option string :=
  match b with
  | BulkLookup =>
      if (100 <? length (bulk_lines (bulkPostcodes i)))%nat
      then Some "Bulk lookup is limited to 100 postcodes."
      else None
  | BulkReverse =>
      let input := Str.trim (bulkGeo i) in
      if (negb (Str.is_empty input) && negb (parses_to_sequence (JSON_parse input)))%bool
      then Some "Invalid JSON for bulk reverse geocode."
      else None
  | _ => None
  end.

(** The envelope [data] has [status] 200 and the sequence [items] as its
    [result]. *)
Definition success_with (data : value) (items : list value) : Prop :=
  (exists code, get data "status" = Ok code /\ is_200 code = true)
  /\ get data "result" = Ok (JArr items).

(** The card of a numbered item, [label] then the item's rank then the
    string form of its property [key], when the item has one. *)
Definition numbered_card (label key : string) (item : value) (idx : nat) : option card :=
  match get item key with
  | Ok field =>
      match ToString field with
      | Ok text =>
          Some {| heading := label ++ Str.of_nat (idx + 1) ++ ": " ++ text;
                  content := generateHTML item |}
      | Throw _ => None
      end
  | Throw _ => None
  end.

(** The card a listener makes of one item of a result sequence, when
    reading the item's properties and titling the card succeed. *)
Definition item_card (b : button) (item : value) (idx : nat) : option card :=
  match b with
  | QueryPostcode => numbered_card "Match " "postcode" item idx
  | NearestPostcode => numbered_card "Nearest " "postcode" item idx
  | ReverseGeocode => numbered_card "Reverse Geocode " "postcode" item idx
  | ReverseOutcode => numbered_card "Reverse Outcode " "outcode" item idx
  | NearestOutcode => numbered_card "Nearest Outcode " "outcode" item idx
  | QueryPlace =>
      match get item "place_name" with
      | Ok place_name =>
          match ToString (if truthy place_name then place_name
                          else JStr ("Place " ++ Str.of_nat (idx + 1))) with
          | Ok text => Some {| heading := text; content := generateHTML item |}
          | Throw _ => None
          end
      | Throw _ => None
      end
  | BulkLookup =>
      match get item "query", get item "result" with
      | Ok title, Ok result =>
          match ToString title with
          | Ok text =>
              Some {| heading := "Bulk Result for " ++ text;
                      content :=
                        generateHTML (if truthy result then result
                                      else JObj [("error", JStr "Not found")]) |}
          | Throw _ => None
          end
      | _, _ => None
      end
  | BulkReverse =>
      match get item "query", get item "result" with
      | Ok _, Ok result =>
          Some {| heading := "Bulk Reverse Result " ++ Str.of_nat (idx + 1);
                  content := generateHTML result |}
      | _, _ => None
      end
  | _ => None
  end.

(** The cards of all the items from rank [idx] on, when each has one. *)
Fixpoint collect (mk : value -> nat -> option card) (items : list value) (idx : nat)
  : option (list card) :=
  match items with
  | [] => Some []
  | item :: rest =>
      match mk item idx, collect mk rest (S idx) with
      | Some c, Some cs => Some (c :: cs)
      | _, _ => None
      end
  end.

(** The property of an item that titles its card. *)
Definition title_key (b : button) : string :=
  match b with
  | QueryPostcode | NearestPostcode | ReverseGeocode => "postcode"
  | ReverseOutcode | NearestOutcode => "outcode"
  | QueryPlace => "place_name"
  | _ => "query"
  end.

(** The item can be titled: it has properties to read (it is neither
    [null] nor [undefined]) and its title property has a string form.
    Autocomplete titles no item. *)
Definition can_be_titled (b : button) (item : value) : Prop :=
  match b with
  | Autocomplete => True
  | _ => exists field text, get item (title_key b) = Ok field /\ ToString field = Ok text
  end.

(** The actions whose success is a non-empty sequence. *)
Definition wants_nonempty_sequence (b : button) : bool :=
  match b with
  | QueryPostcode | Autocomplete | NearestPostcode | ReverseGeocode
  | ReverseOutcode | NearestOutcode | QueryPlace => true
  | _ => false
  end.

(** The cards such an action shows for the non-empty sequence [items]:
    one card for the whole sequence on autocomplete, a card per item on
    the others. *)
Definition sequence_cards (b : button) (i : fields) (items : list value)
  : option (list card) :=
  match b with
  | Autocomplete =>
      Some [{| heading := "Autocomplete for '" ++ Str.trim (postcodeInput i) ++ "'";
               content := generateHTML (JArr items) |}]
  | _ => collect (item_card b) items 0
  end.

Definition get_request (u : url) : request :=
  {| method := GET; target := u; headers := []; body := None |}.

Definition post_request (u : url) (payload : value) : request :=
  {| method := POST; target := u;
     headers := [("Content-Type", "application/json")]; body := Some payload |}.

(** The message of the failure for a response outside the success
    range. *)
Definition status_message (r : response) : string :=
  Str.of_nat (status r) ++ " " ++ statusText r.

End Statements.

(** *** Request helpers *)

Section Contracts.
Context {num : JSNumber} {engine : Engine}.

Definition fails (g : outcome value) : Prop := exists message, g = Throw message.

(** The call cannot complete, or the response is outside the success
    range. *)
Definition transport_failure (a : fetched) : Prop :=
  (exists message, a = Rejected message)
  \/ (exists r, a = Resolved r /\ ok r = false).

(** The response is in the success range and its body does not read as
    JSON. *)
Definition unreadable_body (a : fetched) : Prop :=
  exists r message, a = Resolved r /\ ok r = true /\ json r = Throw message.

(** What a request helper gives, [g], for what [fetch] settled to, [a]. *)
Definition helper_contract (a : fetched) (g : outcome value) : Prop :=
  (fails g <-> transport_failure a \/ unreadable_body a)
  /\ (forall r, a = Resolved r -> ok r = false -> g = Throw (status_message r))
  /\ (forall r v, a = Resolved r -> ok r = true -> json r = Ok v -> g = Ok v).

(** The card of the bulk lookup for [item]. *)
Definition bulk_card (item : value) (c : card) : Prop :=
  exists title text result,
    get item "query" = Ok title /\ ToString title = Ok text
    /\ get item "result" = Ok result
    /\ heading c = "Bulk Result for " ++ text
    /\ heading c <> "Error"
    /\ content c = generateHTML (if truthy result then result
                                  else JObj [("error", JStr "Not found")])
    /\ (result = JNull \/ result = JUndefined ->
        content c = generateHTML (JObj [("error", JStr "Not found")])).

End Contracts.

(** *** Shape of a click *)

Section Shapes.
Context {num : JSNumber} {engine : Engine}.

(** What [getJSON] and [postJSON] do once the request is built. *)
Definition request_json (net : network) (req : request) : M value :=
  response <- fetch net req ;;
  if negb (ok response) then
    throw (Str.of_nat (status response) ++ " " ++ statusText response)
  else lift (json response).

(** A click past its checks: the results area is cleared, the request
    sent, and what comes back handed to [k]; an exception ends in an error
    card. *)
Definition sent_run (net : network) (req : request) (k : value -> M unit) : M unit :=
  clearResults ;;
  try_catch (data <- request_json net req ;; k data)
            (fun message => renderError (JStr message)).

(** [m] does nothing to the page but add cards to the results area. *)
Definition renders {A : Type} (m : M A) : Prop :=
  forall w, exists o cards, m w = (o, add_cards cards w).

(** The click returns at once: a required field is empty once trimmed, or
    the bulk lookup has no entry. *)
Definition returns_at_once (b : button) (i : fields) : bool :=
  match b with
  | BulkLookup => (length (bulk_lines (bulkPostcodes i)) =? 0)%nat
  | _ => existsb (fun field => Str.is_empty (Str.trim (field i))) (required_fields b)
  end.

End Shapes.

(** *** Success conditions *)

Section Conditions.
Context {num : JSNumber} {engine : Engine}.

(** The actions that show one result. *)
Definition wants_single_result (b : button) : bool :=
  match b with
  | LookupPostcode | RandomPostcode | LookupOutcode | LookupPlace | RandomPlace
  | TerminatedLookup | ScottishLookup => true
  | _ => false
  end.

(** The actions that show the [error] of a failure envelope. *)
Definition shows_api_error (b : button) : bool :=
  match b with
  | LookupPostcode | LookupOutcode | LookupPlace | TerminatedLookup
  | ScottishLookup => true
  | _ => false
  end.

(** The actions that answer a failure envelope with a message of their
    own. *)
Definition has_fixed_failure (b : button) : bool :=
  match b with
  | RandomPostcode | RandomPlace | BulkLookup | BulkReverse => true
  | _ => wants_nonempty_sequence b
  end.

(** The condition under which an action takes the envelope [data] for a
    success: a boolean result for the validation, status 200 for the
    others, with a sequence as result for the bulk actions and a non-empty
    one for the actions that list matches. *)
Definition meets_success (b : button) (data : value) : bool :=
  match b with
  | ValidatePostcode =>
      match get data "result" with
      | Ok result => is_boolean result
      | Throw _ => false
      end
  | _ =>
      match get data "status" with
      | Ok code =>
          is_200 code
          && (if wants_nonempty_sequence b then
                match get data "result" with
                | Ok (JArr (_ :: _)) => true
                | _ => false
                end
              else
                match b with
                | BulkLookup | BulkReverse =>
                    match get data "result" with
                    | Ok (JArr _) => true
                    | _ => false
                    end
                | _ => true
                end)
      | Throw _ => false
      end
  end.

(** An envelope of status 200 makes [b], on fields [i], show one card
    titled [title] whose body renders the envelope's [result]. *)
Definition shows_result_as (b : button) (i : fields) (title : string) : Prop :=
  forall net w req r data code result,
    inputs w = i -> outgoing b i = Some req ->
    net req = Resolved r -> ok r = true -> json r = Ok data ->
    get data "status" = Ok code -> is_200 code = true ->
    get data "result" = Ok result ->
    results (snd (init net b w))
    = [{| heading := title; content := generateHTML result |}].

(** An envelope of another status makes [b], on fields [i], show one
    error card: the envelope's [error] when it is truthy, [fallback]
    otherwise. *)
Definition shows_error_or (b : button) (i : fields) (fallback : string) : Prop :=
  forall net w req r data code error,
    inputs w = i -> outgoing b i = Some req ->
    net req = Resolved r -> ok r = true -> json r = Ok data ->
    get data "status" = Ok code -> is_200 code = false ->
    get data "error" = Ok error ->
    results (snd (init net b w))
    = [error_card (if truthy error then error else JStr fallback)].

(** A readable envelope that does not meet the success condition makes
    [b], on fields [i], show one error card with [message]. *)
Definition shows_failure_as (b : button) (i : fields) (message : string) : Prop :=
  forall net w req r data code,
    inputs w = i -> outgoing b i = Some req ->
    net req = Resolved r -> ok r = true -> json r = Ok data ->
    get data "status" = Ok code ->
    meets_success b data = false ->
    results (snd (init net b w)) = [error_card (JStr message)].

(** The actions that render a sequence item by item. *)
Definition renders_each_item (b : button) : bool :=
  match b with
  | QueryPostcode | NearestPostcode | ReverseGeocode | ReverseOutcode
  | NearestOutcode | QueryPlace | BulkLookup | BulkReverse => true
  | _ => false
  end.

End Conditions.

(** *** Requests *)

(** The characters that delimit the parts of a URL: the path separator and
    the marks of query and fragment. *)
Definition url_delimiter (a : ascii) : bool :=
  existsb (Ascii.eqb a) ["/"; "?"; "#"]%char.

Definition is_bulk (b : button) : bool :=
  match b with
  | BulkLookup | BulkReverse => true
  | _ => false
  end.


(** The actions that hand [getJSON] a template string, with no URL object
    and no search parameter. *)
Definition takes_template_url (b : button) : bool :=
  match b with
  | LookupPostcode | ValidatePostcode | LookupOutcode | LookupPlace
  | TerminatedLookup | ScottishLookup => true
  | _ => false
  end.

(** *** Nesting of markup *)

(** The name of a tag: its text up to the first space. *)
Fixpoint tag_name (t : string) : string :=
  match t with
  | "" => ""
  | String a rest => if Ascii.eqb a " " then "" else String a (tag_name rest)
  end.

(** Where an element may open, given the elements open around it,
    innermost first: a list item directly in a list, a list at the top or
    directly in a list item, anything else anywhere. *)
Definition opens_under (name : string) (stack : list string) : bool :=
  if String.eqb name "li" then
    match stack with
    | top :: _ => String.eqb top "ul"
    | [] => false
    end
  else if String.eqb name "ul" then
    match stack with
    | top :: _ => String.eqb top "li"
    | [] => true
    end
  else true.

(** The open elements after the tag of text [t]: a closing tag must
    close the innermost open element. *)
Definition after_tag (stack : list string) (t : string) : option (list string) :=
  match t with
  | String "/" name =>
      match stack with
      | top :: below => if String.eqb top name then Some below else None
      | [] => None
      end
  | _ =>
      if opens_under (tag_name t) stack then Some (tag_name t :: stack) else None
  end.

(** Reading markup: the open elements and, inside a tag, its text so
    far; [None] once the markup is ill-formed. *)
Definition nest_step (st : option (list string * option string)) (a : ascii)
  : option (list string * option string) :=
  match st with
  | None => None
  | Some (stack, None) =>
      if Ascii.eqb a "<" then Some (stack, Some "")
      else if Ascii.eqb a ">" then None
      else Some (stack, None)
  | Some (stack, Some t) =>
      if Ascii.eqb a ">" then
        match after_tag stack t with
        | Some stack' => Some (stack', None)
        | None => None
        end
      else if Ascii.eqb a "<" then None
      else Some (stack, Some (t ++ String a ""))
  end.

Fixpoint nest (st : option (list string * option string)) (s : string)
  : option (list string * option string) :=
  match s with
  | "" => st
  | String a rest => nest (nest_step st a) rest
  end.

(** Every tag of [s] is closed, innermost first, list items sit directly
    in lists and lists at the top or directly in list items. *)
Definition well_nested (s : string) : bool :=
  match nest (Some ([], None)) s with
  | Some ([], None) => true
  | _ => false
  end.

(** The place of a value's markup: at the top, or directly in a list
    item. *)
Definition in_item (stack : list string) : Prop :=
  stack = [] \/ exists below, stack = "li" :: below.

(** * Properties *)

(** ** Strings *)

Lemma append_nil_r (s : string) : s ++ "" = s.
Proof. induction s; simpl; congruence. Qed.

Lemma append_assoc (a b c : string) : (a ++ b) ++ c = a ++ (b ++ c).
Proof. induction a; simpl; congruence. Qed.

Lemma join_empty_cons (x : string) (l : list string) :
  Str.join "" (x :: l) = x ++ Str.join "" l.
Proof.
  destruct l; simpl.
  - symmetry; apply append_nil_r.
  - reflexivity.
Qed.

Lemma replace_all_app (c : ascii) (r a b : string) :
  Str.replace_all c r (a ++ b) = Str.replace_all c r a ++ Str.replace_all c r b.
Proof.
  induction a as [|x a IH]; simpl; [reflexivity|].
  destruct (Ascii.eqb x c); rewrite IH; [symmetry; apply append_assoc | reflexivity].
Qed.

Lemma escapeHTML_app (a b : string) : escapeHTML (a ++ b) = escapeHTML a ++ escapeHTML b.
Proof. unfold escapeHTML. now rewrite !replace_all_app. Qed.

Lemma escapeHTML_char (a : ascii) : escapeHTML (String a "") = escape_char a.
Proof. destruct a as [[] [] [] [] [] [] [] []]; reflexivity. Qed.

(** The five passes of [escapeHTML] amount to one pass that rewrites each
    character on its own. *)
Lemma escapeHTML_each (s : string) : escapeHTML s = escape_each s.
Proof.
  induction s as [|a s IH]; [reflexivity|].
  change (String a s) with (String a "" ++ s).
  rewrite escapeHTML_app, escapeHTML_char, IH. reflexivity.
Qed.

(** ** Scanning markup *)

Lemma scan_app (tags : list string) (a b : string) (st : scan_state) :
  scan tags st (a ++ b) = scan tags (scan tags st a) b.
Proof. revert st; induction a; simpl; auto. Qed.

Lemma scan_escape_char (tags : list string) (a : ascii) :
  scan tags Text (escape_char a) = Text.
Proof. destruct a as [[] [] [] [] [] [] [] []]; reflexivity. Qed.

Lemma scan_escapeHTML (tags : list string) (s : string) :
  scan tags Text (escapeHTML s) = Text.
Proof.
  rewrite escapeHTML_each.
  induction s as [|a s IH]; simpl; [reflexivity|].
  now rewrite scan_app, scan_escape_char.
Qed.

(** Escaped text holds no tag at all, and no ampersand but that of a
    character reference. *)
Lemma escapeHTML_well_escaped (s : string) : well_escaped [] (escapeHTML s) = true.
Proof. unfold well_escaped. now rewrite scan_escapeHTML. Qed.

Lemma keep_app (p : ascii -> bool) (a b : string) :
  keep p (a ++ b) = keep p a ++ keep p b.
Proof.
  induction a as [|x a IH]; simpl; [reflexivity|].
  destruct (p x); simpl; now rewrite IH.
Qed.

Lemma keep_delimiter_escape_char (a : ascii) : keep delimiter (escape_char a) = "".
Proof. destruct a as [[] [] [] [] [] [] [] []]; reflexivity. Qed.

(** Escaped text holds none of the delimiters. *)
Lemma keep_delimiter_escapeHTML (s : string) : keep delimiter (escapeHTML s) = "".
Proof.
  rewrite escapeHTML_each.
  induction s as [|a s IH]; simpl; [reflexivity|].
  now rewrite keep_app, keep_delimiter_escape_char, IH.
Qed.

(** ** Reading escaped text back *)

Lemma read_app (a b : string) (st : reader) :
  read st (a ++ b)
  = (fst (read (fst (read st a)) b), snd (read st a) ++ snd (read (fst (read st a)) b)).
Proof.
  revert st. induction a as [|x a IH]; intros st; cbn [append read].
  - cbn [fst snd append]. now destruct (read st b).
  - destruct (read_step st x) as [st' shown]. rewrite IH.
    destruct (read st' a) as [st'' shown']. cbn [fst snd].
    destruct (read st'' b) as [st3 shown3]. cbn [fst snd].
    now rewrite append_assoc.
Qed.

Lemma shows_app (a b ta tb : string) :
  shows a ta -> shows b tb -> shows (a ++ b) (ta ++ tb).
Proof. unfold shows. intros Ha Hb. rewrite read_app, Ha. cbn [fst snd]. now rewrite Hb. Qed.

Lemma shows_escape_char (a : ascii) : shows (escape_char a) (String a "").
Proof. destruct a as [[] [] [] [] [] [] [] []]; reflexivity. Qed.

(** Escaped text reads back as the text that was escaped. *)
Lemma shows_escapeHTML (s : string) : shows (escapeHTML s) s.
Proof.
  rewrite escapeHTML_each. induction s as [|a s IH]; [reflexivity|].
  cbn [escape_each]. change (String a s) with (String a "" ++ s).
  apply shows_app; [apply shows_escape_char | exact IH].
Qed.

(** ** The renderer *)

Section Renderer.
Context {num : JSNumber}.

(** Induction on values, through the members of sequences and mappings. *)
Lemma value_ind (P : value -> Prop) :
  P JUndefined -> P JNull ->
  (forall b, P (JBool b)) -> (forall n, P (JNum n)) -> (forall s, P (JStr s)) ->
  (forall items, Forall P items -> P (JArr items)) ->
  (forall entries, Forall (fun entry => P (snd entry)) entries -> P (JObj entries)) ->
  forall v, P v.
Proof.
  intros Hu Hn Hb Hnum Hs Ha Ho.
  fix IH 1.
  intros [ | | b | n | s | items | entries ];
    [exact Hu | exact Hn | apply Hb | apply Hnum | apply Hs | | ].
  - apply Ha. induction items as [|x l IHl]; constructor; [apply IH | exact IHl].
  - apply Ho. induction entries as [|[k x] l IHl]; constructor; [apply IH | exact IHl].
Qed.

Lemma scan_rows (tags : list string) (A : Type) (row : A -> string) (l : list A) :
  Forall (fun x => scan tags Text (row x) = Text) l ->
  scan tags Text (Str.join "" (map row l)) = Text.
Proof.
  induction 1 as [|x l Hx _ IH]; [reflexivity|].
  change (map row (x :: l)) with (row x :: map row l).
  now rewrite join_empty_cons, scan_app, Hx.
Qed.

Lemma scan_generateHTML (v : value) : scan template_tags Text (generateHTML v) = Text.
Proof.
  induction v as [ | | b | n | s | items IH | entries IH ] using value_ind;
    try reflexivity; try apply scan_escapeHTML.
  - cbn [generateHTML]. rewrite !scan_app.
    change (scan template_tags Text "<ul>") with Text.
    rewrite scan_rows; [reflexivity|].
    eapply Forall_impl; [|exact IH]. intros x Hx.
    rewrite !scan_app. change (scan template_tags Text "<li>") with Text.
    now rewrite Hx.
  - cbn [generateHTML]. rewrite !scan_app.
    change (scan template_tags Text "<ul>") with Text.
    rewrite scan_rows; [reflexivity|].
    eapply Forall_impl; [|exact IH]. intros [k x] Hx; cbn [fst snd] in *.
    rewrite !scan_app. change (scan template_tags Text "<li><strong>") with Text.
    rewrite scan_escapeHTML.
    change (scan template_tags Text ":</strong> ") with Text.
    now rewrite Hx.
Qed.

Lemma keep_rows (A B : Type) (p : ascii -> bool) (row : A -> string) (row' : B -> string)
      (f : A -> B) (l : list A) :
  Forall (fun x => keep p (row x) = keep p (row' (f x))) l ->
  keep p (Str.join "" (map row l)) = keep p (Str.join "" (map row' (map f l))).
Proof.
  induction 1 as [|x l Hx _ IH]; [reflexivity|].
  cbn [map]. now rewrite !join_empty_cons, !keep_app, Hx, IH.
Qed.

Lemma keep_generateHTML_blank (v : value) :
  keep delimiter (generateHTML v) = keep delimiter (generateHTML (blank v)).
Proof.
  induction v as [ | | b | n | s | items IH | entries IH ] using value_ind;
    try reflexivity;
    try (cbn [generateHTML blank]; now rewrite !keep_delimiter_escapeHTML).
  - cbn [generateHTML blank]. rewrite !keep_app. f_equal. f_equal.
    apply keep_rows. eapply Forall_impl; [|exact IH]. intros x Hx.
    now rewrite !keep_app, Hx.
  - cbn [generateHTML blank]. rewrite !keep_app. f_equal. f_equal.
    apply (keep_rows _ _ delimiter
             (fun entry => "<li><strong>" ++ escapeHTML (fst entry) ++ ":</strong> "
                             ++ generateHTML (snd entry) ++ "</li>")
             (fun entry => "<li><strong>" ++ escapeHTML (fst entry) ++ ":</strong> "
                             ++ generateHTML (snd entry) ++ "</li>")
             (fun entry => ("", blank (snd entry)))).
    eapply Forall_impl; [|exact IH]. intros [k x] Hx; cbn [fst snd] in *.
    now rewrite !keep_app, !keep_delimiter_escapeHTML, Hx.
Qed.

Lemma shows_rows (A : Type) (row shown : A -> string) (l : list A) :
  Forall (fun x => shows (row x) (shown x)) l ->
  shows (Str.join "" (map row l)) (Str.join "" (map shown l)).
Proof.
  induction 1 as [|x l Hx _ IH]; [reflexivity|].
  cbn [map]. rewrite !join_empty_cons. now apply shows_app.
Qed.

Lemma shows_then_tag (b c t : string) : shows b t -> shows c "" -> shows (b ++ c) t.
Proof. intros Hb Hc. rewrite <- (append_nil_r t). now apply shows_app. Qed.

Lemma shows_generateHTML (v : value) : shows (generateHTML v) (shown_text v).
Proof.
  induction v as [ | | b | n | s | items IH | entries IH ] using value_ind;
    try reflexivity; try apply shows_escapeHTML.
  - cbn [generateHTML shown_text].
    apply (shows_app "<ul>" _ "" (Str.join "" (map shown_text items))); [reflexivity|].
    apply shows_then_tag; [|reflexivity].
    apply shows_rows. eapply Forall_impl; [|exact IH]. intros x Hx.
    apply (shows_app "<li>" _ "" (shown_text x)); [reflexivity|].
    apply shows_then_tag; [exact Hx | reflexivity].
  - cbn [generateHTML shown_text].
    apply (shows_app "<ul>" _ ""
             (Str.join "" (map (fun entry => fst entry ++ ": " ++ shown_text (snd entry))
                               entries))); [reflexivity|].
    apply shows_then_tag; [|reflexivity].
    apply (shows_rows _
             (fun entry => "<li><strong>" ++ escapeHTML (fst entry) ++ ":</strong> "
                             ++ generateHTML (snd entry) ++ "</li>")
             (fun entry => fst entry ++ ": " ++ shown_text (snd entry))).
    eapply Forall_impl; [|exact IH]. intros [k x] Hx; cbn [fst snd] in *.
    apply (shows_app "<li><strong>" _ "" (k ++ ": " ++ shown_text x)); [reflexivity|].
    apply shows_app; [apply shows_escapeHTML|].
    apply (shows_app ":</strong> " _ ": " (shown_text x)); [reflexivity|].
    apply shows_then_tag; [exact Hx | reflexivity].
Qed.

(** C1. For every value, the markup the renderer returns embeds every
    key and every leaf in escaped form and nothing of them otherwise.
    Each reserved character of the markup belongs to a tag of the
    renderer's own templates or to one of the five character references;
    the delimiters [<], [>], the double quote and the apostrophe of the
    markup are those of the value's shape alone, whatever its keys and
    leaves are; and read back, with the tags removed and the references
    decoded, the markup shows every key and every leaf character for
    character, an ampersand or a bracket of the content included. *)
Theorem generateHTML_escapes_content (v : value) :
  well_escaped template_tags (generateHTML v) = true
  /\ keep delimiter (generateHTML v) = keep delimiter (generateHTML (blank v))
  /\ text_content (generateHTML v) = shown_text v.
Proof.
  split; [|split].
  - unfold well_escaped. now rewrite scan_generateHTML.
  - apply keep_generateHTML_blank.
  - unfold text_content. now rewrite (shows_generateHTML v).
Qed.

(** C8. The renderer returns the null marker for [null] and for
    [undefined], and for no other value. *)
Theorem generateHTML_null_marker (v : value) :
  generateHTML v = null_marker <-> v = JNull \/ v = JUndefined.
Proof.
  split.
  - destruct v as [ | | b | n | s | items | entries ]; auto; intros H; exfalso.
    1-3: apply (f_equal (keep delimiter)) in H;
         cbn [generateHTML] in H; rewrite keep_delimiter_escapeHTML in H;
         discriminate H.
    1-2: cbn [generateHTML] in H; discriminate H.
  - intros [-> | ->]; reflexivity.
Qed.

End Renderer.

(** ** White space and the entry list *)

Lemma ws2_not_ws1 a b : Str.ws2 a b = true -> Str.ws1 a = false.
Proof.
  unfold Str.ws2, Str.ws1. intros H.
  apply andb_prop in H as [Ha _]. apply Nat.eqb_eq in Ha. now rewrite Ha.
Qed.

Lemma ws3_lead a b c :
  Str.ws3 a b c = true ->
  (225 <= nat_of_ascii a /\ 128 <= nat_of_ascii b /\ 128 <= nat_of_ascii c)%nat.
Proof.
  unfold Str.ws3. intros H.
  repeat (rewrite ?orb_true_iff, ?andb_true_iff, ?Nat.eqb_eq, ?Nat.leb_le in H).
  lia.
Qed.

Lemma ws3_not_ws1 a b c : Str.ws3 a b c = true -> Str.ws1 a = false.
Proof.
  intros H. apply ws3_lead in H. unfold Str.ws1.
  apply not_true_is_false. intros H1.
  repeat (rewrite ?orb_true_iff, ?andb_true_iff, ?Nat.eqb_eq, ?Nat.leb_le in H1).
  lia.
Qed.

Lemma ws3_not_ws2 a b c : Str.ws3 a b c = true -> Str.ws2 a b = false.
Proof.
  intros H. apply ws3_lead in H. unfold Str.ws2.
  apply not_true_is_false. intros H1.
  repeat (rewrite ?orb_true_iff, ?andb_true_iff, ?Nat.eqb_eq, ?Nat.leb_le in H1).
  lia.
Qed.

Lemma separator_code a :
  entry_separator a = true -> nat_of_ascii a = 10 \/ nat_of_ascii a = 44.
Proof.
  unfold entry_separator. intros H. apply orb_prop in H as [H | H];
    apply Ascii.eqb_eq in H; subst a; auto.
Qed.

Lemma ws2_not_separator a b :
  Str.ws2 a b = true -> entry_separator a = false /\ entry_separator b = false.
Proof.
  unfold Str.ws2. intros H.
  apply andb_prop in H as [Ha Hb]. apply Nat.eqb_eq in Ha, Hb.
  split; apply not_true_is_false; intros H; apply separator_code in H; lia.
Qed.

Lemma ws3_not_separator a b c :
  Str.ws3 a b c = true ->
  entry_separator a = false /\ entry_separator b = false /\ entry_separator c = false.
Proof.
  intros H. apply ws3_lead in H.
  repeat split; apply not_true_is_false; intros H1; apply separator_code in H1; lia.
Qed.

Lemma trimStart_all_space s : all_space s -> Str.trimStart s = "".
Proof.
  induction 1 as [ | a r Ha _ IH | a b r Hab _ IH | a b c r Habc _ IH ].
  - reflexivity.
  - simpl. now rewrite Ha.
  - simpl. now rewrite (ws2_not_ws1 _ _ Hab), Hab.
  - simpl. now rewrite (ws3_not_ws1 _ _ _ Habc), (ws3_not_ws2 _ _ _ Habc), Habc.
Qed.

Lemma all_space_trimStart_upto n s :
  (String.length s <= n)%nat -> Str.trimStart s = "" -> all_space s.
Proof.
  revert s. induction n as [|n IH]; intros s Hlen H.
  - destruct s; [constructor | simpl in Hlen; lia].
  - destruct s as [|a r1]; [constructor|].
    simpl in Hlen. simpl in H.
    destruct (Str.ws1 a) eqn:Ha.
    { apply space_one; [exact Ha | apply IH; [lia | exact H]]. }
    destruct r1 as [|b r2]; [discriminate H|].
    simpl in Hlen.
    destruct (Str.ws2 a b) eqn:Hab.
    { apply space_two; [exact Hab | apply IH; [lia | exact H]]. }
    destruct r2 as [|c r3]; [discriminate H|].
    simpl in Hlen.
    destruct (Str.ws3 a b c) eqn:Habc; [|discriminate H].
    apply space_three; [exact Habc | apply IH; [lia | exact H]].
Qed.

Lemma all_space_trimStart s : Str.trimStart s = "" -> all_space s.
Proof. apply (all_space_trimStart_upto (String.length s)); lia. Qed.

Lemma trimStart_idempotent_upto n s :
  (String.length s <= n)%nat -> Str.trimStart (Str.trimStart s) = Str.trimStart s.
Proof.
  revert s. induction n as [|n IH]; intros s Hlen.
  - destruct s; [reflexivity | simpl in Hlen; lia].
  - destruct s as [|a r1]; [reflexivity|].
    simpl in Hlen.
    cbn [Str.trimStart]. destruct (Str.ws1 a) eqn:Ha.
    { apply IH; lia. }
    destruct r1 as [|b r2].
    { cbn [Str.trimStart]. now rewrite Ha. }
    simpl in Hlen.
    destruct (Str.ws2 a b) eqn:Hab.
    { apply IH; lia. }
    destruct r2 as [|c r3].
    { cbn [Str.trimStart]. now rewrite Ha, Hab. }
    simpl in Hlen.
    destruct (Str.ws3 a b c) eqn:Habc.
    { apply IH; lia. }
    cbn [Str.trimStart]. now rewrite Ha, Hab, Habc.
Qed.

Lemma trimEnd_empty s : Str.trimEnd s = "" -> s = "" \/ Str.trimStart s = "".
Proof.
  destruct s as [|a r]; [now left|].
  cbn [Str.trimEnd]. destruct (Str.trimStart (String a r)) eqn:E; [now right|].
  discriminate.
Qed.

(** A string trims to nothing exactly when it is made of white space. *)
Lemma trim_empty_all_space s : Str.trim s = "" <-> all_space s.
Proof.
  unfold Str.trim. split.
  - intros H. apply all_space_trimStart.
    apply trimEnd_empty in H as [H | H]; [exact H|].
    rewrite (trimStart_idempotent_upto (String.length s)) in H by lia. exact H.
  - intros H. now rewrite (trimStart_all_space _ H).
Qed.

Lemma split_nonempty sep s : Str.split sep s <> [].
Proof.
  induction s as [|a s IH]; simpl; [discriminate|].
  destruct (sep a); [discriminate|].
  destruct (Str.split sep s); [contradiction | discriminate].
Qed.

Lemma split_cons_other sep a s :
  sep a = false ->
  exists piece more,
    Str.split sep s = piece :: more /\ Str.split sep (String a s) = String a piece :: more.
Proof.
  intros Ha. cbn [Str.split]. rewrite Ha.
  destruct (Str.split sep s) as [|piece more] eqn:E.
  - now apply split_nonempty in E.
  - now exists piece, more.
Qed.

Lemma all_space_split s :
  all_space s -> Forall all_space (Str.split entry_separator s).
Proof.
  induction 1 as [ | a r Ha Hr IH | a b r Hab Hr IH | a b c r Habc Hr IH ].
  - repeat constructor.
  - destruct (entry_separator a) eqn:Sa.
    + cbn [Str.split]. rewrite Sa. constructor; [constructor | exact IH].
    + destruct (split_cons_other entry_separator a r Sa) as (p & m & E & ->).
      rewrite E in IH. inversion IH; subst.
      constructor; [now apply space_one | assumption].
  - destruct (ws2_not_separator _ _ Hab) as [Sa Sb].
    destruct (split_cons_other entry_separator b r Sb) as (p & m & E & E').
    destruct (split_cons_other entry_separator a (String b r) Sa) as (p' & m' & F & ->).
    rewrite E' in F. injection F as <- <-.
    rewrite E in IH. inversion IH; subst.
    constructor; [now apply space_two | assumption].
  - destruct (ws3_not_separator _ _ _ Habc) as (Sa & Sb & Sc).
    destruct (split_cons_other entry_separator c r Sc) as (p & m & E & E').
    destruct (split_cons_other entry_separator b (String c r) Sb) as (p' & m' & F & F').
    destruct (split_cons_other entry_separator a (String b (String c r)) Sa)
      as (p'' & m'' & G & ->).
    rewrite E' in F. injection F as <- <-.
    rewrite F' in G. injection G as <- <-.
    rewrite E in IH. inversion IH; subst.
    constructor; [now apply space_three | assumption].
Qed.

(** A bulk input made of white space has no entries. *)
Lemma bulk_lines_blank text : Str.trim text = "" -> bulk_lines text = [].
Proof.
  intros H. apply trim_empty_all_space, all_space_split in H.
  unfold bulk_lines. change (fun a => (Ascii.eqb a "010" || Ascii.eqb a ",")%bool)
    with entry_separator.
  induction H as [|p l Hp _ IH]; [reflexivity|].
  cbn [map filter]. apply trim_empty_all_space in Hp. now rewrite Hp.
Qed.

(** ** Listeners *)

Lemma some_eq {A : Type} (x y : A) : Some x = Some y -> x = y.
Proof. congruence. Qed.

Ltac unfold_outgoing H :=
  cbv beta iota zeta delta
    [init lookupPostcodeBtn validatePostcodeBtn queryPostcodeBtn bulkLookupBtn
     randomPostcodeBtn autocompleteBtn nearestPostcodeBtn reverseGeocodeBtn
     bulkReverseBtn reverseOutcodeBtn lookupOutcodeBtn nearestOutcodeBtn
     lookupPlaceBtn queryPlaceBtn randomPlaceBtn terminatedLookupBtn
     scottishLookupBtn
     bind ret lift throw try_catch value_of clearResults fetch getJSON postJSON
     renderError renderCard appendChild ToString
     outgoing offline set_results log_request inputs results sent fst snd
     hd_error app] in H.

Ltac unfold_listener :=
  cbv beta iota zeta delta
    [init lookupPostcodeBtn validatePostcodeBtn queryPostcodeBtn bulkLookupBtn
     randomPostcodeBtn autocompleteBtn nearestPostcodeBtn reverseGeocodeBtn
     bulkReverseBtn reverseOutcodeBtn lookupOutcodeBtn nearestOutcodeBtn
     lookupPlaceBtn queryPlaceBtn randomPlaceBtn terminatedLookupBtn
     scottishLookupBtn nonempty_result sequence_result
     bind ret lift throw try_catch value_of clearResults fetch getJSON postJSON
     set_results log_request inputs results sent fst snd].

Section Listeners.
Context {num : JSNumber} {engine : Engine}.
Variable net : network.

Lemma renderCard_text (text : string) (data : value) (w : world) :
  renderCard (JStr text) data w
  = (Ok tt, add_cards [{| heading := text; content := generateHTML data |}] w).
Proof. reflexivity. Qed.

Lemma renderError_run (message : value) (w : world) :
  renderError message w = (Ok tt, add_cards [error_card message] w).
Proof. reflexivity. Qed.

Lemma add_cards_twice (a b : list card) (w : world) :
  add_cards b (add_cards a w) = add_cards (a ++ b) w.
Proof.
  destruct w; unfold add_cards, set_results; cbn [inputs results sent].
  now rewrite app_assoc.
Qed.

Lemma add_cards_nil (w : world) : add_cards [] w = w.
Proof.
  destruct w; unfold add_cards, set_results; cbn [inputs results sent].
  now rewrite app_nil_r.
Qed.

(** C5. A click on a button one of whose required fields is empty once
    trimmed does nothing: the listener returns at once, the page keeps
    its cards as they were and no request is sent. *)
Theorem empty_required_field_aborts (b : button) (field : fields -> string) (w : world) :
  In field (required_fields b) ->
  Str.trim (field (inputs w)) = "" ->
  init net b w = (Ok tt, w).
Proof.
  intros Hin Hempty. destruct w as [i cards log]. cbn [inputs] in Hempty.
  destruct b; cbn [required_fields In] in Hin;
    repeat match goal with
           | H : _ \/ _ |- _ => destruct H as [H | H]
           | H : False |- _ => destruct H
           end;
    subst field; unfold_listener;
    rewrite ?Hempty, ?(bulk_lines_blank _ Hempty); cbn [Str.is_empty length Nat.eqb orb];
    try reflexivity.
  all: now destruct (Str.is_empty (Str.trim (latitudeInput i))).
Qed.

Lemma over_limit_run (w : world) :
  (100 < length (bulk_lines (bulkPostcodes (inputs w))))%nat ->
  init net BulkLookup w
  = (Ok tt, add_cards [error_card (JStr "Bulk lookup is limited to 100 postcodes.")] w)
  /\ outgoing BulkLookup (inputs w) = None.
Proof.
  intros Hlen. destruct w as [i cards log]. cbn [inputs sent] in *.
  assert (H0 : (length (bulk_lines (bulkPostcodes i)) =? 0)%nat = false)
    by (apply Nat.eqb_neq; lia).
  assert (H1 : (100 <? length (bulk_lines (bulkPostcodes i)))%nat = true)
    by (apply Nat.ltb_lt; exact Hlen).
  split.
  - unfold_listener. rewrite H0, H1. apply renderError_run.
  - unfold outgoing. unfold_listener. now rewrite H0, H1.
Qed.

Lemma invalid_json_run (w : world) :
  Str.trim (bulkGeo (inputs w)) <> "" ->
  parses_to_sequence (JSON_parse (Str.trim (bulkGeo (inputs w)))) = false ->
  init net BulkReverse w
  = (Ok tt, add_cards [error_card (JStr "Invalid JSON for bulk reverse geocode.")] w)
  /\ outgoing BulkReverse (inputs w) = None.
Proof.
  intros Hne Hparse. destruct w as [i cards log]. cbn [inputs sent] in *.
  assert (H0 : Str.is_empty (Str.trim (bulkGeo i)) = false)
    by (destruct (Str.trim (bulkGeo i)); [contradiction | reflexivity]).
  split; [|unfold outgoing]; unfold_listener; rewrite H0;
    destruct (JSON_parse (Str.trim (bulkGeo i))) as [[]|]; try discriminate Hparse;
    reflexivity.
Qed.

(** C3. When the bulk lookup's entry list has more than 100 entries, the
    listener adds the error card that states the limit and sends no
    request: the log of requests is as it was, and the click has no
    outgoing request. *)
Theorem bulk_lookup_over_limit (w : world) :
  (100 < length (bulk_lines (bulkPostcodes (inputs w))))%nat ->
  init net BulkLookup w
  = (Ok tt, add_cards [error_card (JStr "Bulk lookup is limited to 100 postcodes.")] w)
  /\ sent (snd (init net BulkLookup w)) = sent w
  /\ outgoing BulkLookup (inputs w) = None.
Proof.
  intros Hlen. destruct (over_limit_run w Hlen) as [E O].
  split; [exact E|]. split; [now rewrite E | exact O].
Qed.

(** C4. When the bulk reverse geocode input is not empty and either
    fails to parse as JSON or parses to something that is not a
    sequence, the listener adds the error card that states the JSON is
    invalid and sends no request. *)
Theorem bulk_reverse_invalid_json (w : world) :
  Str.trim (bulkGeo (inputs w)) <> "" ->
  parses_to_sequence (JSON_parse (Str.trim (bulkGeo (inputs w)))) = false ->
  init net BulkReverse w
  = (Ok tt, add_cards [error_card (JStr "Invalid JSON for bulk reverse geocode.")] w)
  /\ sent (snd (init net BulkReverse w)) = sent w
  /\ outgoing BulkReverse (inputs w) = None.
Proof.
  intros Hne Hparse. destruct (invalid_json_run w Hne Hparse) as [E O].
  split; [exact E|]. split; [now rewrite E | exact O].
Qed.

Lemma turned_down_adds_card (b : button) (w : world) (message : string) :
  turned_down b (inputs w) = Some message ->
  init net b w = (Ok tt, add_cards [error_card (JStr message)] w).
Proof.
  intros H. destruct b; try discriminate H;
    cbv beta iota zeta delta [turned_down] in H.
  - destruct (100 <? length (bulk_lines (bulkPostcodes (inputs w))))%nat eqn:L;
      [|discriminate H].
    apply some_eq in H; subst message.
    apply Nat.ltb_lt in L. apply (over_limit_run w L).
  - destruct (Str.is_empty (Str.trim (bulkGeo (inputs w)))) eqn:E0;
      [discriminate H|].
    destruct (parses_to_sequence (JSON_parse (Str.trim (bulkGeo (inputs w))))) eqn:P;
      [discriminate H|].
    apply some_eq in H; subst message.
    apply (invalid_json_run w); [|exact P].
    intros Hnil. rewrite Hnil in E0. discriminate E0.
Qed.

Lemma clears_first (b : button) (w : world) :
  turned_down b (inputs w) = None ->
  init net b w = (Ok tt, w) \/ init net b w = init net b (set_results [] w).
Proof.
  destruct w as [i cards log]. cbn [inputs]. intros H.
  destruct b; cbv beta iota zeta delta [turned_down] in H; unfold_listener.
  all: try (right; reflexivity).
  all: try match goal with
           | |- context [(Str.is_empty ?x || Str.is_empty ?y)%bool] =>
               destruct (Str.is_empty x); [now left|];
               destruct (Str.is_empty y); [now left | now right]
           | |- context [Str.is_empty ?x] =>
               destruct (Str.is_empty x) eqn:E0; [now left|]
           end.
  all: try (right; reflexivity).
  - destruct (length (bulk_lines (bulkPostcodes i)) =? 0)%nat; [now left|].
    destruct (100 <? length (bulk_lines (bulkPostcodes i)))%nat; [discriminate H|].
    now right.
  - cbn [negb andb] in H.
    destruct (JSON_parse (Str.trim (bulkGeo i))) as [[]|]; try discriminate H.
    now right.
Qed.

(** C9. An input the page itself turns down (a bulk lookup list over
    the limit, a bulk reverse geocode input that is not a JSON sequence)
    gets its error card added after the cards already on display, which
    all stay.  On every other click the listener either returns at once
    or clears the results area first: what it leaves is what it would
    leave on an empty results area. *)
Theorem turned_down_keeps_cards :
  (forall b w message,
      turned_down b (inputs w) = Some message ->
      results (snd (init net b w)) = (results w ++ [error_card (JStr message)])%list)
  /\ (forall b w,
         turned_down b (inputs w) = None ->
         init net b w = (Ok tt, w)
         \/ init net b w = init net b (set_results [] w)).
Proof.
  split.
  - intros b w message H. now rewrite (turned_down_adds_card b w message H).
  - apply clears_first.
Qed.

End Listeners.

(** ** Responses *)

Section Responses.
Context {num : JSNumber} {engine : Engine}.
Variable net : network.

Lemma helper_outcome (a : fetched) (w : world) :
  helper_contract a
    (fst (match a with
          | Rejected message => (Throw message, w)
          | Resolved r =>
              if negb (ok r) then (Throw (status_message r), w) else (json r, w)
          end)).
Proof.
  unfold helper_contract, fails, transport_failure, unreadable_body.
  destruct a as [m | r]; cbn [fst].
  - split; [|split].
    + split; [intros _; left; left; now exists m | intros _; now exists m].
    + intros r H; discriminate H.
    + intros r v H; discriminate H.
  - destruct (ok r) eqn:Hok; cbn [negb fst].
    + split; [|split].
      * split.
        -- intros [m Hm]. right. now exists r, m.
        -- intros [[[m H] | (r' & H & Hr')] | (r' & m & H & _ & Hm)].
           ++ discriminate H.
           ++ apply eq_sym in H. injection H as ->. congruence.
           ++ apply eq_sym in H. injection H as ->. now exists m.
      * intros r' H Hr'. injection H as ->. congruence.
      * intros r' v H _ Hv. injection H as ->. exact Hv.
    + split; [|split].
      * split.
        -- intros _. left. right. now exists r.
        -- intros _. now exists (status_message r).
      * intros r' H _. injection H as ->. reflexivity.
      * intros r' v H Hr'. injection H as ->. congruence.
Qed.

(** C6. [getJSON] and [postJSON] each send their one request, and fail
    exactly when the call cannot complete, when the response is outside
    the success range, or when the body of a response in the success
    range does not read as JSON.  For a response outside the success
    range the message of the failure is the status code, a space and
    the status text; for one in the success range whose body reads as
    JSON both return the parsed body. *)
Theorem request_helpers_contract (u : url) (payload : value) (w : world) :
  helper_contract (net (get_request u)) (fst (getJSON net u w))
  /\ snd (getJSON net u w) = log_request (get_request u) w
  /\ helper_contract (net (post_request u payload)) (fst (postJSON net u payload w))
  /\ snd (postJSON net u payload w) = log_request (post_request u payload) w.
Proof.
  pose proof (helper_outcome (net (get_request u)) (log_request (get_request u) w)) as G.
  pose proof (helper_outcome (net (post_request u payload))
                (log_request (post_request u payload) w)) as P.
  unfold getJSON, postJSON, fetch, bind, lift, throw.
  fold (get_request u). fold (post_request u payload).
  unfold status_message in *.
  destruct (net (get_request u)) as [m | r];
    destruct (net (post_request u payload)) as [m' | r'];
    try destruct (negb (ok r)); try destruct (negb (ok r'));
    repeat split; solve [apply G | apply P].
Qed.

Lemma forEach_cards (f : value -> nat -> M unit) (mk : value -> nat -> option card) :
  (forall item idx w c, mk item idx = Some c -> f item idx w = (Ok tt, add_cards [c] w)) ->
  forall items idx w cards,
    collect mk items idx = Some cards ->
    forEach f items idx w = (Ok tt, add_cards cards w).
Proof.
  intros Hf. induction items as [|item rest IH]; intros idx w cards H; cbn [collect] in H.
  - apply some_eq in H; subst cards. cbn [forEach]. unfold ret. now rewrite add_cards_nil.
  - destruct (mk item idx) as [c|] eqn:Hc; [|discriminate H].
    destruct (collect mk rest (S idx)) as [cs|] eqn:Hcs; [|discriminate H].
    apply some_eq in H; subst cards.
    cbn [forEach]. unfold bind. rewrite (Hf _ _ _ _ Hc), (IH _ _ _ Hcs).
    now rewrite add_cards_twice.
Qed.

Lemma collect_length (mk : value -> nat -> option card) (items : list value) :
  forall idx cards, collect mk items idx = Some cards -> length cards = length items.
Proof.
  induction items as [|item rest IH]; intros idx cards H; cbn [collect] in H.
  - apply some_eq in H; now subst cards.
  - destruct (mk item idx); [|discriminate H].
    destruct (collect mk rest (S idx)) as [cs|] eqn:Hcs; [|discriminate H].
    apply some_eq in H; subst cards. cbn [length]. now rewrite (IH _ _ Hcs).
Qed.

Lemma collect_Forall2 (mk : value -> nat -> option card) (items : list value) :
  forall idx cards,
    collect mk items idx = Some cards ->
    Forall2 (fun item c => exists i, mk item i = Some c) items cards.
Proof.
  induction items as [|item rest IH]; intros idx cards H; cbn [collect] in H.
  - apply some_eq in H; subst cards. constructor.
  - destruct (mk item idx) as [c|] eqn:Hc; [|discriminate H].
    destruct (collect mk rest (S idx)) as [cs|] eqn:Hcs; [|discriminate H].
    apply some_eq in H; subst cards. constructor; [now exists idx | now apply (IH (S idx))].
Qed.

(** C7. Once the response to the validation request is in the success
    range and its body reads as JSON, what decides is the [result]
    property of the envelope and nothing else, its [status] least of
    all: a boolean gives the card with the upper-cased postcode and that
    boolean, anything else (no [result], or reading it fails) gives an
    error card. *)
Theorem validation_goes_by_boolean_result
        (w : world) (req : request) (r : response) (data : value) :
  outgoing ValidatePostcode (inputs w) = Some req ->
  net req = Resolved r -> ok r = true -> json r = Ok data ->
  let postcode := toUpperCase (Str.trim (postcodeInput (inputs w))) in
  results (snd (init net ValidatePostcode w))
  = match get data "result" with
    | Ok (JBool valid) =>
        [{| heading := "Validate Postcode: " ++ postcode;
            content := generateHTML (JObj [("postcode", JStr postcode);
                                           ("valid", JBool valid)]) |}]
    | Ok _ => [error_card (JStr "Unexpected validation response")]
    | Throw message => [error_card (JStr message)]
    end.
Proof.
  intros Hout Hnet Hok Hjson. destruct w as [i cards log].
  unfold_outgoing Hout. unfold_listener.
  destruct (Str.is_empty (Str.trim (postcodeInput i))); [discriminate Hout|].
  apply some_eq in Hout; subst req.
  rewrite Hnet, Hok. cbn [negb]. rewrite Hjson.
  destruct (get data "result") as [[]|]; reflexivity.
Qed.

End Responses.

(** ** Result sequences *)

Section Sequences.
Context {num : JSNumber} {engine : Engine}.
Variable net : network.

(** Rewrites the reading of a success envelope in the goal. *)
Ltac read_envelope Hnet Hok Hjson Hcode H200 Hresult :=
  rewrite Hnet, Hok; cbn [negb]; rewrite Hjson, Hcode, H200, Hresult.

Ltac titled_side_condition :=
  let item := fresh "item" in
  let idx := fresh "idx" in
  let w := fresh "w" in
  let c := fresh "c" in
  let H := fresh "H" in
  intros item idx w c H;
  cbv beta iota delta [item_card numbered_card] in H;
  repeat match type of H with
         | context [match ?x with _ => _ end] =>
             destruct x eqn:?; try discriminate H
         end;
  apply some_eq in H; subst c;
  first [ reflexivity
        | unfold renderCard, bind, lift;
          match goal with E : ToString _ = Ok _ |- _ => rewrite E end;
          reflexivity ].

Lemma per_item_run (b : button) (w : world) (req : request) (r : response)
      (data : value) (items : list value) (cards : list card) :
  match b with
  | QueryPostcode | NearestPostcode | ReverseGeocode | ReverseOutcode
  | NearestOutcode | QueryPlace => items <> []
  | BulkLookup | BulkReverse => True
  | _ => False
  end ->
  outgoing b (inputs w) = Some req ->
  net req = Resolved r -> ok r = true -> json r = Ok data ->
  success_with data items ->
  collect (item_card b) items 0 = Some cards ->
  results (snd (init net b w)) = cards.
Proof.
  intros Hb Hout Hnet Hok Hjson [(code & Hcode & H200) Hresult] Hcards.
  destruct w as [i old log].
  destruct b; cbv beta iota in Hb; try (exfalso; exact Hb);
    unfold_outgoing Hout; unfold_listener.
  all: repeat match type of Hout with
              | context [if ?g then _ else _] => destruct g; try discriminate Hout
              end.
  all: try (destruct (JSON_parse (Str.trim (bulkGeo i))) as [[]|];
            cbn [isArray negb] in Hout; unfold_outgoing Hout; try discriminate Hout;
            cbn [isArray negb]; unfold_listener).
  all: apply some_eq in Hout; subst req.
  all: read_envelope Hnet Hok Hjson Hcode H200 Hresult.
  all: try (destruct items as [|item rest]; [now exfalso; apply Hb|]).
  all: erewrite forEach_cards; [reflexivity | | exact Hcards].
  all: titled_side_condition.
Qed.

Lemma get_any_key (item field : value) (key key' : string) :
  get item key = Ok field -> exists other, get item key' = Ok other.
Proof.
  destruct item; cbn [get]; intros H; try discriminate H; eauto.
  destruct (lookup key' entries); eauto.
Qed.

Lemma titled_item_card (b : button) (item : value) (idx : nat) :
  match b with
  | QueryPostcode | NearestPostcode | ReverseGeocode | ReverseOutcode
  | NearestOutcode | QueryPlace | BulkLookup => True
  | _ => False
  end ->
  can_be_titled b item -> exists c, item_card b item idx = Some c.
Proof.
  intros Hb; destruct b; try contradiction Hb;
    intros (field & text & Hget & Htext);
    cbv beta iota delta [item_card numbered_card title_key] in *.
  all: try (rewrite Hget, Htext; eexists; reflexivity).
  - rewrite Hget.
    destruct (get_any_key item field "query" "result" Hget) as [other ->].
    rewrite Htext. eexists; reflexivity.
  - rewrite Hget. destruct (truthy field); [rewrite Htext|]; eexists; reflexivity.
Qed.

Lemma titled_collect (b : button) (items : list value) :
  match b with
  | QueryPostcode | NearestPostcode | ReverseGeocode | ReverseOutcode
  | NearestOutcode | QueryPlace | BulkLookup => True
  | _ => False
  end ->
  Forall (can_be_titled b) items ->
  forall idx, exists cards, collect (item_card b) items idx = Some cards.
Proof.
  intros Hb. induction 1 as [|item rest Hitem _ IH]; intros idx; cbn [collect].
  - eexists; reflexivity.
  - destruct (titled_item_card b item idx Hb Hitem) as [c ->].
    destruct (IH (S idx)) as [cs ->]. eexists; reflexivity.
Qed.

(** C2. For the actions whose success is a non-empty sequence: on a
    response in the success range whose envelope has status 200 and a
    non-empty sequence as its result, autocomplete shows one card, titled
    with the partial postcode and holding the whole sequence; each of the
    other six shows one card per item, in order, provided every item can
    be titled (no item is [null], and the property that titles an item
    has a string form). *)
Theorem nonempty_sequence_cards (b : button) (w : world) (req : request) (r : response)
        (data : value) (items : list value) :
  wants_nonempty_sequence b = true ->
  outgoing b (inputs w) = Some req ->
  net req = Resolved r -> ok r = true -> json r = Ok data ->
  success_with data items -> items <> [] ->
  Forall (can_be_titled b) items ->
  exists cards,
    sequence_cards b (inputs w) items = Some cards
    /\ results (snd (init net b w)) = cards
    /\ length cards = match b with Autocomplete => 1 | _ => length items end.
Proof.
  intros Hb Hout Hnet Hok Hjson Hdata Hne Htitled.
  destruct b; try discriminate Hb; cbn [sequence_cards].
  all: try solve
    [ match type of Htitled with
      | Forall (can_be_titled ?b') _ =>
          destruct (titled_collect b' items I Htitled 0) as [cards Hcards]
      end;
      exists cards; split; [exact Hcards|]; split;
      [ apply (per_item_run _ w req r data items cards); assumption
      | apply (collect_length _ _ _ _ Hcards) ] ].
  eexists; split; [reflexivity|].
  destruct Hdata as [(code & Hcode & H200) Hresult].
  destruct w as [i old log]. cbn [inputs].
  unfold_outgoing Hout. unfold_listener.
  destruct (Str.is_empty (Str.trim (postcodeInput i))); [discriminate Hout|].
  apply some_eq in Hout; subst req.
  rewrite Hnet, Hok; cbn [negb]; rewrite Hjson, Hcode, H200, Hresult.
  destruct items; [now contradiction Hne|]. split; reflexivity.
Qed.

Lemma item_card_bulk (item : value) (idx : nat) (c : card) :
  item_card BulkLookup item idx = Some c -> bulk_card item c.
Proof.
  cbv beta iota delta [item_card]. intros H.
  destruct (get item "query") as [title|] eqn:Hq; [|discriminate H].
  destruct (get item "result") as [result|] eqn:Hr; [|discriminate H].
  destruct (ToString title) as [text|] eqn:Ht; [|discriminate H].
  apply some_eq in H; subst c.
  exists title, text, result. cbn [heading content].
  repeat split; try assumption; try reflexivity.
  - discriminate.
  - now intros [-> | ->].
Qed.

(** C10. On a response in the success range whose envelope has status
    200 and a sequence as its result, the bulk lookup shows one card per
    item, in order, provided every item can be titled (no item is
    [null], and the query of each has a string form).  Each card is
    titled [Bulk Result for] and the query, never [Error]; its body is the
    item's result, or, for an item whose result is absent or [null], the
    mapping of [error] to [Not found]. *)
Theorem bulk_lookup_cards (w : world) (req : request) (r : response)
        (data : value) (items : list value) :
  outgoing BulkLookup (inputs w) = Some req ->
  net req = Resolved r -> ok r = true -> json r = Ok data ->
  success_with data items ->
  Forall (can_be_titled BulkLookup) items ->
  length (results (snd (init net BulkLookup w))) = length items
  /\ Forall2 bulk_card items (results (snd (init net BulkLookup w))).
Proof.
  intros Hout Hnet Hok Hjson Hdata Htitled.
  destruct (titled_collect BulkLookup items I Htitled 0) as [cards Hcards].
  rewrite (per_item_run BulkLookup w req r data items cards I Hout Hnet Hok Hjson
             Hdata Hcards).
  split.
  - apply (collect_length _ _ _ _ Hcards).
  - eapply Forall2_impl; [|apply (collect_Forall2 _ _ _ _ Hcards)].
    intros item c [idx H]. apply (item_card_bulk _ _ _ H).
Qed.

End Sequences.

(** ** The shape of a click *)

Section Shape.
Context {num : JSNumber} {engine : Engine}.

Lemma renders_ret {A : Type} (a : A) : renders (ret a).
Proof. intros w. exists (Ok a), []. unfold ret. now rewrite add_cards_nil. Qed.

Lemma renders_throw {A : Type} (message : string) : renders (throw (A:=A) message).
Proof. intros w. exists (Throw message), []. unfold throw. now rewrite add_cards_nil. Qed.

Lemma renders_lift {A : Type} (o : outcome A) : renders (lift o).
Proof. intros w. exists o, []. unfold lift. now rewrite add_cards_nil. Qed.

Lemma renders_bind {A B : Type} (m : M A) (k : A -> M B) :
  renders m -> (forall a, renders (k a)) -> renders (bind m k).
Proof.
  intros Hm Hk w. unfold bind. destruct (Hm w) as (o & cards & ->).
  destruct o as [a | e].
  - destruct (Hk a (add_cards cards w)) as (o' & cards' & ->).
    exists o', (cards ++ cards')%list. now rewrite add_cards_twice.
  - now exists (Throw e), cards.
Qed.

Lemma renders_appendChild (c : card) : renders (appendChild c).
Proof. intros w. now exists (Ok tt), [c]. Qed.

Lemma renders_renderCard (title data : value) : renders (renderCard title data).
Proof.
  unfold renderCard. apply renders_bind; [apply renders_lift|].
  intros text. apply renders_appendChild.
Qed.

Lemma renders_renderError (message : value) : renders (renderError message).
Proof. apply renders_renderCard. Qed.

Lemma renders_forEach (f : value -> nat -> M unit) :
  (forall item idx, renders (f item idx)) ->
  forall items idx, renders (forEach f items idx).
Proof.
  intros Hf. induction items as [|item rest IH]; intros idx; cbn [forEach].
  - apply renders_ret.
  - apply renders_bind; [apply Hf | intros _; apply IH].
Qed.

Lemma renders_nonempty_result (data : value) : renders (nonempty_result data).
Proof.
  unfold nonempty_result. apply renders_bind; [apply renders_lift|]. intros code.
  destruct (is_200 code); [|apply renders_ret].
  apply renders_bind; [apply renders_lift|]. intros [ | | | | | [|item rest] | ];
    apply renders_ret.
Qed.

Lemma renders_sequence_result (data : value) : renders (sequence_result data).
Proof.
  unfold sequence_result. apply renders_bind; [apply renders_lift|]. intros code.
  destruct (is_200 code); [|apply renders_ret].
  apply renders_bind; [apply renders_lift|]. intros []; apply renders_ret.
Qed.

End Shape.

Ltac show_renders :=
  repeat first
    [ apply renders_ret
    | apply renders_throw
    | apply renders_lift
    | apply renders_renderError
    | apply renders_renderCard
    | apply renders_nonempty_result
    | apply renders_sequence_result
    | apply renders_forEach; intros
    | apply renders_bind; [|intros]
    | match goal with
      | |- renders (if ?c then _ else _) => destruct c
      | |- renders (match ?x with _ => _ end) => destruct x
      end ].

Section Clicks.
Context {num : JSNumber} {engine : Engine}.

Ltac open_listener :=
  cbv delta
    [init lookupPostcodeBtn validatePostcodeBtn queryPostcodeBtn bulkLookupBtn
     randomPostcodeBtn autocompleteBtn nearestPostcodeBtn reverseGeocodeBtn
     bulkReverseBtn reverseOutcodeBtn lookupOutcodeBtn nearestOutcodeBtn
     lookupPlaceBtn queryPlaceBtn randomPlaceBtn terminatedLookupBtn
     scottishLookupBtn];
  cbv beta iota.

Ltac read_field Hi :=
  unfold bind at 1; unfold value_of at 1; cbv beta iota zeta; rewrite ?Hi.

Ltac sends_shape :=
  eexists; eexists; split; cycle 1;
  [ let net := fresh "net" in
    let w := fresh "w" in
    let Hi := fresh "Hi" in
    intros net w Hi; open_listener; repeat read_field Hi;
    repeat match goal with
           | G : _ = false |- _ => rewrite G
           end;
    cbv beta iota zeta; reflexivity
  | let data := fresh "data" in intros data; cbv beta; show_renders ].

(** What a click comes to, by the fields alone: it returns at once; or the
    page turns the input down and shows why; or it clears the results
    area, sends one request and renders what comes back, an exception
    ending in an error card. *)
Lemma click_shape (b : button) (i : fields) :
  (returns_at_once b i = true
   /\ forall net w, inputs w = i -> init net b w = (Ok tt, w))
  \/ (returns_at_once b i = false
      /\ exists message,
          turned_down b i = Some message
          /\ forall net w, inputs w = i -> init net b w = renderError (JStr message) w)
  \/ (returns_at_once b i = false
      /\ turned_down b i = None
      /\ exists req k,
          (forall data, renders (k data))
          /\ forall net w, inputs w = i ->
               init net b w
               = (clearResults ;;
                  try_catch (data <- request_json net req ;; k data)
                            (fun message => renderError (JStr message))) w).
Proof.
  destruct b; cbn [returns_at_once required_fields existsb turned_down].
  all: try match goal with
           | |- context [(Str.is_empty (Str.trim (?f ?x)) || false)%bool] =>
               rewrite (orb_false_r (Str.is_empty (Str.trim (f x))));
               destruct (Str.is_empty (Str.trim (f x))) eqn:G;
               [ left; split; [reflexivity|];
                 intros net w Hi; open_listener; read_field Hi; now rewrite G
               | right; right; split; [reflexivity|]; split; [reflexivity|];
                 sends_shape ]
           end.
  - (* bulk lookup *)
    destruct (length (bulk_lines (bulkPostcodes i)) =? 0)%nat eqn:G0.
    { left; split; [reflexivity|].
      intros net w Hi; open_listener; read_field Hi; now rewrite G0. }
    destruct (100 <? length (bulk_lines (bulkPostcodes i)))%nat eqn:G1.
    { right; left; split; [reflexivity|]. eexists; split; [reflexivity|].
      intros net w Hi; open_listener; read_field Hi; now rewrite G0, G1. }
    right; right; split; [reflexivity|]; split; [reflexivity|]. sends_shape.
  - (* random postcode *)
    right; right; split; [reflexivity|]; split; [reflexivity|]. sends_shape.
  - (* reverse geocode *)
    destruct (Str.is_empty (Str.trim (latitudeInput i))) eqn:G0;
      [|destruct (Str.is_empty (Str.trim (longitudeInput i))) eqn:G1].
    1-2: left; split; [reflexivity|];
         intros net w Hi; open_listener; do 2 read_field Hi; now rewrite G0, ?G1.
    right; right; split; [reflexivity|]; split; [reflexivity|]. sends_shape.
  - (* bulk reverse geocode *)
    rewrite (orb_false_r (Str.is_empty (Str.trim (bulkGeo i)))).
    destruct (Str.is_empty (Str.trim (bulkGeo i))) eqn:G0.
    { left; split; [reflexivity|].
      intros net w Hi; open_listener; read_field Hi; now rewrite G0. }
    cbn [negb andb].
    destruct (parses_to_sequence (JSON_parse (Str.trim (bulkGeo i)))) eqn:P.
    + right; right; split; [reflexivity|]; split; [reflexivity|].
      destruct (JSON_parse (Str.trim (bulkGeo i))) as [[ | | | | | geolocations | ]|] eqn:J;
        try discriminate P.
      eexists; eexists; split; cycle 1.
      * intros net w Hi; open_listener; read_field Hi. rewrite G0.
        unfold bind at 1. unfold try_catch at 1. unfold bind at 1. unfold lift at 1.
        rewrite J. cbn [isArray negb]. reflexivity.
      * intros data; cbv beta; show_renders.
    + right; left; split; [reflexivity|]. eexists; split; [reflexivity|].
      intros net w Hi; open_listener; read_field Hi. rewrite G0.
      unfold bind at 1. unfold try_catch at 1. unfold bind at 1. unfold lift at 1.
      destruct (JSON_parse (Str.trim (bulkGeo i))) as [[]|]; try discriminate P;
        reflexivity.
  - (* reverse geocode to outcodes *)
    destruct (Str.is_empty (Str.trim (latitudeInput i))) eqn:G0;
      [|destruct (Str.is_empty (Str.trim (longitudeInput i))) eqn:G1].
    1-2: left; split; [reflexivity|];
         intros net w Hi; open_listener; do 2 read_field Hi; now rewrite G0, ?G1.
    right; right; split; [reflexivity|]; split; [reflexivity|]. sends_shape.
  - (* random place *)
    right; right; split; [reflexivity|]; split; [reflexivity|]. sends_shape.
Qed.

(** After the request the listener ends normally, whatever came back: the
    fields are as they were, the request is the last one logged, and the
    results area holds the cards of this click alone. *)
Lemma sent_run_ends (net : network) (req : request) (k : value -> M unit) (w : world) :
  (forall data, renders (k data)) ->
  exists cards,
    sent_run net req k w
    = (Ok tt, {| inputs := inputs w; results := cards; sent := (sent w ++ [req])%list |}).
Proof.
  intros Hk. destruct w as [i old log].
  unfold sent_run, bind, clearResults, try_catch, request_json, bind, fetch, throw, lift.
  destruct (net req) as [m | r].
  - eexists; reflexivity.
  - destruct (ok r); cbn [negb]; [|eexists; reflexivity].
    destruct (json r) as [data | m]; [|eexists; reflexivity].
    cbv beta iota delta [log_request set_results inputs results sent].
    destruct (Hk data {| inputs := i; results := []; sent := (log ++ [req])%list |})
      as (o & cards & ->).
    destruct o as [[] | m]; eexists; reflexivity.
Qed.

Lemma sent_run_outgoing (req : request) (k : value -> M unit) (i : fields) :
  hd_error (sent (snd (sent_run offline req k {| inputs := i; results := []; sent := [] |})))
  = Some req.
Proof. reflexivity. Qed.

(** The three ways of a click, with what each leaves and sends. *)
Lemma click_run (b : button) (w : world) :
  (returns_at_once b (inputs w) = true
   /\ outgoing b (inputs w) = None
   /\ forall net, init net b w = (Ok tt, w))
  \/ (exists message,
         returns_at_once b (inputs w) = false
         /\ turned_down b (inputs w) = Some message
         /\ outgoing b (inputs w) = None
         /\ forall net, init net b w = (Ok tt, add_cards [error_card (JStr message)] w))
  \/ (exists req k,
         returns_at_once b (inputs w) = false
         /\ turned_down b (inputs w) = None
         /\ outgoing b (inputs w) = Some req
         /\ (forall data, renders (k data))
         /\ forall net, init net b w = sent_run net req k w).
Proof.
  destruct (click_shape b (inputs w))
    as [[R H] | [(R & message & T & H) | (R & T & req & k & Hk & H)]].
  - left. split; [exact R|]. split; [|intros net; now apply H].
    unfold outgoing. now rewrite (H offline {| inputs := inputs w; results := []; sent := [] |} eq_refl).
  - right; left. exists message. split; [exact R|]. split; [exact T|]. split.
    + unfold outgoing. now rewrite (H offline {| inputs := inputs w; results := []; sent := [] |} eq_refl).
    + intros net. now rewrite (H net w eq_refl).
  - right; right. exists req, k. split; [exact R|]. split; [exact T|]. split; [|split].
    + unfold outgoing. rewrite (H offline {| inputs := inputs w; results := []; sent := [] |} eq_refl).
      exact (sent_run_outgoing req k (inputs w)).
    + exact Hk.
    + intros net. now apply H.
Qed.

(** X1. No click ends in an exception, and none changes an input field:
    whatever the network answers and whatever the payload holds, the
    listener returns normally. *)
Theorem click_never_throws (net : network) (b : button) (w : world) :
  fst (init net b w) = Ok tt /\ inputs (snd (init net b w)) = inputs w.
Proof.
  destruct (click_run b w)
    as [(_ & _ & H) | [(message & _ & _ & _ & H) | (req & k & _ & _ & _ & Hk & H)]];
    rewrite (H net).
  - now split.
  - now split.
  - destruct (sent_run_ends net req k w Hk) as [cards ->]. now split.
Qed.

(** X2. A click sends at most one request, the one its fields determine,
    and logs nothing else: the answers of the network change nothing to
    what is sent. *)
Theorem click_sends_at_most_one (net : network) (b : button) (w : world) :
  sent (snd (init net b w))
  = (sent w ++ match outgoing b (inputs w) with
               | Some req => [req]
               | None => []
               end)%list.
Proof.
  destruct (click_run b w)
    as [(_ & -> & H) | [(message & _ & _ & -> & H) | (req & k & _ & _ & -> & Hk & H)]];
    rewrite (H net).
  - cbn [snd]. now rewrite app_nil_r.
  - destruct w; cbn [snd sent add_cards set_results]. now rewrite app_nil_r.
  - destruct (sent_run_ends net req k w Hk) as [cards ->]. reflexivity.
Qed.


(** X4. When the request cannot complete, comes back outside the success
    range, or comes back with a body that is not JSON, the click leaves
    exactly one card, the error card with the failure's message, in place
    of whatever was on display. *)
Theorem failed_request_card (net : network) (b : button) (w : world) (req : request) :
  outgoing b (inputs w) = Some req ->
  (forall message,
      net req = Rejected message ->
      results (snd (init net b w)) = [error_card (JStr message)])
  /\ (forall r,
         net req = Resolved r -> ok r = false ->
         results (snd (init net b w)) = [error_card (JStr (status_message r))])
  /\ (forall r message,
         net req = Resolved r -> ok r = true -> json r = Throw message ->
         results (snd (init net b w)) = [error_card (JStr message)]).
Proof.
  intros Hout.
  destruct (click_run b w)
    as [(_ & O & _) | [(message & _ & _ & O & _) | (req' & k & _ & _ & O & Hk & H)]];
    rewrite O in Hout; try discriminate Hout.
  apply some_eq in Hout; subst req'.
  rewrite (H net). destruct w as [i old log].
  unfold sent_run, bind, clearResults, try_catch, request_json, bind, fetch, throw, lift.
  split; [|split].
  - intros m N. now rewrite N.
  - intros r N Hok. now rewrite N, Hok.
  - intros r m N Hok J. rewrite N, Hok. cbn [negb]. now rewrite J.
Qed.

End Clicks.

(** ** Envelopes *)

Section Envelopes.
Context {num : JSNumber} {engine : Engine}.

(** Brings a listener to the point where the envelope is in hand. *)
Ltac receive Hi Hout Hnet Hok Hjson :=
  match type of Hi with
  | inputs ?w = _ => destruct w as [? ? ?]; cbn [inputs] in Hi; subst
  end;
  unfold_outgoing Hout; unfold_listener;
  repeat match type of Hout with
         | context [if ?g then _ else _] => destruct g eqn:?; try discriminate Hout
         end;
  try (destruct (JSON_parse (Str.trim (bulkGeo _))) as [[]|];
       cbn [isArray negb] in Hout; unfold_outgoing Hout; try discriminate Hout;
       cbn [isArray negb]; unfold_listener);
  apply some_eq in Hout; subst;
  rewrite Hnet, Hok; cbn [negb]; rewrite Hjson.

(** X5. For the seven actions that show one result, an envelope of status
    200 gives exactly one card: its title depends on the input fields
    alone and its body renders the envelope's [result], the null marker
    when there is none; an [error] in such an envelope is not looked
    at. *)
Theorem single_result_card (b : button) (i : fields) :
  wants_single_result b = true ->
  exists title, shows_result_as b i title.
Proof.
  intros Hb. destruct b; try discriminate Hb; eexists;
    intros net w req r data code result Hi Hout Hnet Hok Hjson Hcode H200 Hresult;
    receive Hi Hout Hnet Hok Hjson; rewrite Hcode, H200, Hresult; reflexivity.
Qed.

(** X6. For the five lookups, an envelope whose status is not 200 gives
    exactly one error card: it shows the envelope's [error] when that is
    truthy, and otherwise a message made from the input alone. *)
Theorem lookup_failure_card (b : button) (i : fields) :
  shows_api_error b = true ->
  exists fallback, shows_error_or b i fallback.
Proof.
  intros Hb. destruct b; try discriminate Hb; eexists;
    intros net w req r data code error Hi Hout Hnet Hok Hjson Hcode H200 Herror;
    receive Hi Hout Hnet Hok Hjson; rewrite Hcode, H200, Herror; reflexivity.
Qed.

(** X7. For the random, listing and bulk actions, an envelope that can be
    read and does not meet the action's success condition (a status other
    than 200, a result that is not a sequence, an empty sequence where
    matches are listed) gives exactly one error card, whose message
    depends on the input alone: the envelope's own [error] is never
    shown. *)
Theorem fixed_failure_card (b : button) (i : fields) :
  has_fixed_failure b = true ->
  exists message, shows_failure_as b i message.
Proof.
  intros Hb. destruct b; try discriminate Hb; eexists;
    intros net w req r data code Hi Hout Hnet Hok Hjson Hcode Hfail;
    destruct (get_any_key data code "status" "result" Hcode) as [result Hresult];
    cbv beta iota delta [meets_success wants_nonempty_sequence] in Hfail;
    rewrite Hcode, ?Hresult in Hfail;
    receive Hi Hout Hnet Hok Hjson; rewrite Hcode;
    (destruct (is_200 code); cbn [andb] in Hfail; [|reflexivity]);
    try discriminate Hfail;
    rewrite Hresult;
    (destruct result as [ | | | | | [|item rest] | ];
     try discriminate Hfail; reflexivity).
Qed.

End Envelopes.

(** ** Sequences rendered item by item *)

Section Items.
Context {num : JSNumber} {engine : Engine}.

Lemma collect_nth (mk : value -> nat -> option card) (items : list value) :
  forall idx cards,
    collect mk items idx = Some cards ->
    forall n item,
      nth_error items n = Some item ->
      exists c, mk item (idx + n) = Some c /\ nth_error cards n = Some c.
Proof.
  induction items as [|x rest IH]; intros idx cards H n item Hn.
  - destruct n; discriminate Hn.
  - cbn [collect] in H.
    destruct (mk x idx) as [c|] eqn:Hc; [|discriminate H].
    destruct (collect mk rest (S idx)) as [cs|] eqn:Hcs; [|discriminate H].
    apply some_eq in H; subst cards.
    destruct n as [|n]; cbn [nth_error] in *.
    + apply some_eq in Hn; subst x. exists c. now rewrite Nat.add_0_r.
    + destruct (IH (S idx) cs Hcs n item Hn) as (c' & Hc' & Hn').
      exists c'. split; [|exact Hn'].
      now rewrite <- Nat.add_succ_comm.
Qed.

Lemma forEach_stops (f : value -> nat -> M unit) (mk : value -> nat -> option card) :
  (forall item idx w c, mk item idx = Some c -> f item idx w = (Ok tt, add_cards [c] w)) ->
  (forall item idx w, mk item idx = None -> exists m, f item idx w = (Throw m, w)) ->
  forall good bad rest idx w cards,
    collect mk good idx = Some cards ->
    mk bad (idx + length good) = None ->
    exists m, forEach f (good ++ bad :: rest) idx w = (Throw m, add_cards cards w).
Proof.
  intros Hgood Hbad.
  induction good as [|item good IH]; intros bad rest idx w cards H Hnone;
    cbn [collect] in H; cbn [app forEach length] in *.
  - apply some_eq in H; subst cards. rewrite Nat.add_0_r in Hnone.
    destruct (Hbad bad idx w Hnone) as [m E].
    exists m. unfold bind. now rewrite E, add_cards_nil.
  - destruct (mk item idx) as [c|] eqn:Hc; [|discriminate H].
    destruct (collect mk good (S idx)) as [cs|] eqn:Hcs; [|discriminate H].
    apply some_eq in H; subst cards.
    rewrite <- Nat.add_succ_comm in Hnone.
    destruct (IH bad rest (S idx) (add_cards [c] w) cs Hcs Hnone) as [m E].
    exists m. unfold bind. rewrite (Hgood _ _ _ _ Hc), E.
    now rewrite add_cards_twice.
Qed.

Lemma get_of_mapping_like (item : value) (key : string) :
  item <> JNull -> item <> JUndefined -> exists v, get item key = Ok v.
Proof.
  intros Hn Hu. destruct item; cbn [get]; try contradiction; eauto.
  destruct (lookup key entries); eauto.
Qed.

Ltac envelope_in_hand Hout Hnet Hok Hjson Hcode H200 Hresult :=
  unfold_outgoing Hout; unfold_listener;
  repeat match type of Hout with
         | context [if ?g then _ else _] => destruct g; try discriminate Hout
         end;
  try (destruct (JSON_parse (Str.trim (bulkGeo _))) as [[]|];
       cbn [isArray negb] in Hout; unfold_outgoing Hout; try discriminate Hout;
       cbn [isArray negb]; unfold_listener);
  apply some_eq in Hout; subst;
  rewrite Hnet, Hok; cbn [negb]; rewrite Hjson, Hcode, H200, Hresult.

Ltac card_made :=
  let item := fresh "item" in
  let idx := fresh "idx" in
  let w := fresh "w" in
  let c := fresh "c" in
  let H := fresh "H" in
  intros item idx w c H;
  cbv beta iota delta [item_card numbered_card] in H;
  repeat match type of H with
         | context [match ?x with _ => _ end] =>
             destruct x eqn:?; try discriminate H
         end;
  apply some_eq in H; subst c;
  first [ reflexivity
        | unfold renderCard, bind, lift;
          match goal with E : ToString _ = Ok _ |- _ => rewrite E end;
          reflexivity ].

Ltac card_refused :=
  let item := fresh "item" in
  let idx := fresh "idx" in
  let w := fresh "w" in
  let H := fresh "H" in
  intros item idx w H;
  cbv beta iota delta [item_card numbered_card] in H;
  repeat match type of H with
         | context [match ?x with _ => _ end] =>
             destruct x eqn:?; try discriminate H
         end;
  try match goal with |- context [truthy ?x] => destruct (truthy x) end;
  first [ eexists; reflexivity
        | unfold renderCard, bind, lift;
          match goal with E : ToString _ = Throw _ |- _ => rewrite E end;
          eexists; reflexivity ].

(** X8. When an item of the sequence cannot be made into a card (it is
    [null], or its title has no string form), the cards of the items
    before it stay, an error card follows them, and the items after it
    are not rendered. *)
Theorem rendering_stops_at_bad_item
        (net : network) (b : button) (w : world) (req : request) (r : response)
        (data : value) (good : list value) (bad : value) (rest : list value)
        (cards : list card) :
  renders_each_item b = true ->
  outgoing b (inputs w) = Some req ->
  net req = Resolved r -> ok r = true -> json r = Ok data ->
  success_with data (good ++ bad :: rest) ->
  collect (item_card b) good 0 = Some cards ->
  item_card b bad (length good) = None ->
  exists message,
    results (snd (init net b w)) = (cards ++ [error_card (JStr message)])%list.
Proof.
  intros Hb Hout Hnet Hok Hjson [(code & Hcode & H200) Hresult] Hcards Hbad.
  destruct w as [i old log].
  remember (good ++ bad :: rest)%list as items eqn:Hitems.
  destruct items as [|first others];
    [now apply app_cons_not_nil in Hitems|].
  destruct b; try discriminate Hb;
    envelope_in_hand Hout Hnet Hok Hjson Hcode H200 Hresult;
    rewrite Hitems;
    match goal with
    | |- context [forEach ?f _ 0 ?w0] =>
        match type of Hcards with
        | collect (item_card ?b') _ _ = _ =>
            assert (Hmade : forall item idx w c,
                       item_card b' item idx = Some c ->
                       f item idx w = (Ok tt, add_cards [c] w)) by card_made;
            assert (Hrefused : forall item idx w,
                       item_card b' item idx = None ->
                       exists m, f item idx w = (Throw m, w)) by card_refused;
            destruct (forEach_stops f (item_card b') Hmade Hrefused
                        good bad rest 0 w0 cards Hcards Hbad) as [m E];
            rewrite E; exists m; reflexivity
        end
    end.
Qed.

Lemma bulk_reverse_collect (items : list value) :
  Forall (fun item => item <> JNull /\ item <> JUndefined) items ->
  forall idx, exists cards, collect (item_card BulkReverse) items idx = Some cards.
Proof.
  induction 1 as [|item rest [Hn Hu] _ IH]; intros idx; cbn [collect].
  - eexists; reflexivity.
  - destruct (IH (S idx)) as [cs ->].
    assert (Hc : exists c, item_card BulkReverse item idx = Some c).
    { cbv beta iota delta [item_card].
      destruct (get_of_mapping_like item "query" Hn Hu) as [q ->].
      destruct (get_of_mapping_like item "result" Hn Hu) as [res ->].
      eexists; reflexivity. }
    destruct Hc as [c ->]. eexists; reflexivity.
Qed.

(** X9. On a success envelope none of whose items is [null], the bulk
    reverse geocode shows one card per item, in order: the card of the
    item of rank [n] is titled [Bulk Reverse Result] and [n], whatever the
    item's [query] is, and renders the item's [result]; an empty sequence
    leaves the results area empty, with no error card. *)
Theorem bulk_reverse_cards
        (net : network) (w : world) (req : request) (r : response)
        (data : value) (items : list value) :
  outgoing BulkReverse (inputs w) = Some req ->
  net req = Resolved r -> ok r = true -> json r = Ok data ->
  success_with data items ->
  Forall (fun item => item <> JNull /\ item <> JUndefined) items ->
  length (results (snd (init net BulkReverse w))) = length items
  /\ forall n item,
       nth_error items n = Some item ->
       exists result,
         get item "result" = Ok result
         /\ nth_error (results (snd (init net BulkReverse w))) n
            = Some {| heading := "Bulk Reverse Result " ++ Str.of_nat (n + 1);
                      content := generateHTML result |}.
Proof.
  intros Hout Hnet Hok Hjson Hdata Hitems.
  destruct (bulk_reverse_collect items Hitems 0) as [cards Hcards].
  rewrite (per_item_run net BulkReverse w req r data items cards I Hout Hnet Hok Hjson
             Hdata Hcards).
  split; [apply (collect_length _ _ _ _ Hcards)|].
  intros n item Hn.
  destruct (collect_nth _ _ _ _ Hcards n item Hn) as (c & Hc & Hnth).
  cbv beta iota delta [item_card] in Hc. cbn [Nat.add] in Hc.
  destruct (get item "query"); [|discriminate Hc].
  destruct (get item "result") as [result|]; [|discriminate Hc].
  apply some_eq in Hc; subst c. now exists result.
Qed.

End Items.

(** ** Requests *)

Lemma keep_url_delimiter_encoded_step (a : ascii) (s : string) :
  keep url_delimiter (Str.encodeURIComponent (String a s))
  = keep url_delimiter (Str.encodeURIComponent s).
Proof. destruct a as [[] [] [] [] [] [] [] []]; reflexivity. Qed.

Lemma keep_url_delimiter_encoded (s : string) :
  keep url_delimiter (Str.encodeURIComponent s) = "".
Proof.
  induction s as [|a s IH]; [reflexivity|].
  now rewrite keep_url_delimiter_encoded_step.
Qed.

Lemma keep_entry_separator_split (s : string) :
  Forall (fun piece => keep entry_separator piece = "") (Str.split entry_separator s).
Proof.
  induction s as [|a s IH]; cbn [Str.split]; [repeat constructor|].
  destruct (entry_separator a) eqn:Sa.
  - constructor; [reflexivity | exact IH].
  - destruct (Str.split entry_separator s) as [|piece more]; [repeat constructor|].
    + cbn [keep]. now rewrite Sa.
    + inversion IH; subst. constructor; [|assumption].
      cbn [keep]. now rewrite Sa.
Qed.

Lemma keep_nil_cons (p : ascii -> bool) (a : ascii) (s : string) :
  keep p (String a s) = "" -> p a = false /\ keep p s = "".
Proof. cbn [keep]. destruct (p a); [discriminate | auto]. Qed.

Lemma keep_trimStart_upto (p : ascii -> bool) (n : nat) (s : string) :
  (String.length s <= n)%nat -> keep p s = "" -> keep p (Str.trimStart s) = "".
Proof.
  revert s. induction n as [|n IH]; intros s Hlen H.
  - destruct s; [reflexivity | simpl in Hlen; lia].
  - destruct s as [|a r1]; [reflexivity|].
    simpl in Hlen. cbn [Str.trimStart].
    destruct (keep_nil_cons p a r1 H) as [Ha H1].
    destruct (Str.ws1 a); [apply IH; [lia | exact H1]|].
    destruct r1 as [|b r2]; [exact H|].
    simpl in Hlen. destruct (keep_nil_cons p b r2 H1) as [Hb H2].
    destruct (Str.ws2 a b); [apply IH; [lia | exact H2]|].
    destruct r2 as [|c r3]; [exact H|].
    simpl in Hlen. destruct (keep_nil_cons p c r3 H2) as [Hc H3].
    destruct (Str.ws3 a b c); [apply IH; [lia | exact H3] | exact H].
Qed.

Lemma keep_trimEnd (p : ascii -> bool) (s : string) :
  keep p s = "" -> keep p (Str.trimEnd s) = "".
Proof.
  induction s as [|a s IH]; intros H; [reflexivity|].
  cbn [Str.trimEnd]. destruct (Str.is_empty (Str.trimStart (String a s))); [reflexivity|].
  destruct (keep_nil_cons p a s H) as [Ha Hs].
  cbn [keep]. rewrite Ha. now apply IH.
Qed.

Lemma keep_trim (p : ascii -> bool) (s : string) :
  keep p s = "" -> keep p (Str.trim s) = "".
Proof.
  intros H. unfold Str.trim. apply keep_trimEnd.
  now apply (keep_trimStart_upto p (String.length s)).
Qed.

(** X10. The entries of the bulk lookup are never empty and hold neither
    a line feed nor a comma: whatever the text of the field, each entry
    sent is one piece between separators, trimmed. *)
Theorem bulk_lines_entries (text : string) :
  Forall (fun entry => entry <> "" /\ keep entry_separator entry = "") (bulk_lines text).
Proof.
  unfold bulk_lines.
  change (fun a => (Ascii.eqb a "010" || Ascii.eqb a ",")%bool) with entry_separator.
  pose proof (keep_entry_separator_split text) as H.
  induction H as [|piece more Hpiece _ IH]; cbn [map filter]; [constructor|].
  destruct (Str.trim piece) as [|a rest] eqn:E; cbn [Str.is_empty negb]; [exact IH|].
  constructor; [|exact IH]. split; [discriminate|].
  rewrite <- E. now apply keep_trim.
Qed.

Section Requests.
Context {num : JSNumber} {engine : Engine}.

Ltac outgoing_request H :=
  unfold_outgoing H;
  repeat match type of H with
         | context [if ?g then _ else _] => destruct g eqn:?; try discriminate H
         end;
  try (destruct (JSON_parse (Str.trim (bulkGeo _))) as [[]|];
       cbn [isArray negb] in H; unfold_outgoing H; try discriminate H);
  apply some_eq in H; subst.

(** X11. The request of a bulk lookup carries between 1 and 100
    postcodes: it is the POST of the entry list to the postcodes path,
    and it is sent only when that list has at least one and at most 100
    entries. *)
Theorem bulk_request_within_limit (i : fields) (req : request) :
  outgoing BulkLookup i = Some req ->
  req = post_request (URL (API_BASE ++ "/postcodes"))
          (JObj [("postcodes", JArr (map JStr (bulk_lines (bulkPostcodes i))))])
  /\ (1 <= length (bulk_lines (bulkPostcodes i)) <= 100)%nat.
Proof.
  intros H. unfold_outgoing H.
  destruct (length (bulk_lines (bulkPostcodes i)) =? 0)%nat eqn:G0; [discriminate H|].
  destruct (100 <? length (bulk_lines (bulkPostcodes i)))%nat eqn:G1; [discriminate H|].
  apply some_eq in H; subst req. split; [reflexivity|].
  apply Nat.eqb_neq in G0. apply Nat.ltb_ge in G1. lia.
Qed.

(** X12. Every request goes to the API: its URL starts with the API base
    and a slash.  The two bulk actions POST a JSON body with the JSON
    content type; every other action sends a GET with no body and no
    header. *)
Theorem requests_go_to_api (b : button) (i : fields) (req : request) :
  outgoing b i = Some req ->
  String.prefix (API_BASE ++ "/") (href (target req)) = true
  /\ if is_bulk b
     then method req = POST
          /\ headers req = [("Content-Type", "application/json")]
          /\ body req <> None
     else method req = GET /\ headers req = [] /\ body req = None.
Proof.
  intros H. destruct b; outgoing_request H; cbn [is_bulk];
    (split; [reflexivity|]); repeat split; discriminate.
Qed.

(** X13. For the six lookups that hand [getJSON] a template string,
    what the user types adds no path separator, no query mark and no
    fragment mark to that string, and no search parameter is set: on any
    two pages the strings of the same lookup have the same delimiters in
    the same order.  (What the browser then makes of the string, dot
    segments included, is not the script's and is not covered.) *)
Theorem input_adds_no_url_delimiter (b : button) (i i' : fields) (req req' : request) :
  takes_template_url b = true ->
  outgoing b i = Some req ->
  outgoing b i' = Some req' ->
  searchParams (target req) = []
  /\ keep url_delimiter (href (target req)) = keep url_delimiter (href (target req')).
Proof.
  intros Hb H H'. destruct b; try discriminate Hb;
    outgoing_request H; outgoing_request H';
    cbn [href target searchParams URL]; (split; [reflexivity|]);
    unfold API_BASE;
    repeat (rewrite ?keep_app, ?keep_url_delimiter_encoded);
    reflexivity.
Qed.

(** X14. [getJSON] and [postJSON] treat what comes back in the same way:
    when the network settles their two requests alike, both fail with
    the same message or both return the same value. *)
Theorem helpers_agree (net : network) (u u' : url) (payload : value) (w w' : world) :
  net (get_request u) = net (post_request u' payload) ->
  fst (getJSON net u w) = fst (postJSON net u' payload w').
Proof.
  intros H. unfold getJSON, postJSON, bind, fetch, throw, lift.
  fold (get_request u). fold (post_request u' payload). rewrite H.
  destruct (net (post_request u' payload)) as [m | r]; [reflexivity|].
  destruct (negb (ok r)); reflexivity.
Qed.

End Requests.

(** ** More on escaping *)

Lemma reserved_cases (a : ascii) :
  reserved a = true ->
  a = "&"%char \/ a = "<"%char \/ a = ">"%char \/ a = "034"%char \/ a = "'"%char.
Proof.
  destruct a as [[] [] [] [] [] [] [] []]; intros H; try discriminate H; tauto.
Qed.

Lemma escape_char_plain (a : ascii) : reserved a = false -> escape_char a = String a "".
Proof.
  destruct a as [[] [] [] [] [] [] [] []]; intros H; try discriminate H; reflexivity.
Qed.

Lemma escape_char_reserved (a : ascii) :
  reserved a = true ->
  exists b c d rest, escape_char a = String "&" (String b (String c (String d rest))).
Proof.
  intros H. apply reserved_cases in H.
  destruct H as [-> | [-> | [-> | [-> | ->]]]]; repeat eexists.
Qed.

Lemma escape_char_separates (x y : ascii) (u v : string) :
  escape_char x ++ u = escape_char y ++ v -> x = y /\ u = v.
Proof.
  intros H. destruct (reserved x) eqn:Rx; destruct (reserved y) eqn:Ry.
  - apply reserved_cases in Rx, Ry.
    destruct Rx as [-> | [-> | [-> | [-> | ->]]]];
      destruct Ry as [-> | [-> | [-> | [-> | ->]]]];
      cbn in H; try discriminate H; injection H as ->; split; reflexivity.
  - rewrite (escape_char_plain y Ry) in H.
    destruct (escape_char_reserved x Rx) as (b & c & d & rest & E). rewrite E in H.
    cbn in H. injection H as <- _. discriminate Ry.
  - rewrite (escape_char_plain x Rx) in H.
    destruct (escape_char_reserved y Ry) as (b & c & d & rest & E). rewrite E in H.
    cbn in H. injection H as -> _. discriminate Rx.
  - rewrite (escape_char_plain x Rx), (escape_char_plain y Ry) in H.
    cbn in H. injection H as -> ->. split; reflexivity.
Qed.

Lemma escape_char_nonempty (a : ascii) (u : string) : escape_char a ++ u <> "".
Proof.
  destruct (reserved a) eqn:R.
  - destruct (escape_char_reserved a R) as (b & c & d & rest & ->). discriminate.
  - rewrite (escape_char_plain a R). discriminate.
Qed.

(** X15. [escapeHTML] loses nothing: two strings with the same escaped
    form are the same string. *)
Theorem escapeHTML_injective (s t : string) : escapeHTML s = escapeHTML t -> s = t.
Proof.
  rewrite !escapeHTML_each. revert t.
  induction s as [|x s IH]; intros [|y t] H; cbn [escape_each] in H.
  - reflexivity.
  - symmetry in H. now apply escape_char_nonempty in H.
  - now apply escape_char_nonempty in H.
  - apply escape_char_separates in H as [-> H]. now rewrite (IH t H).
Qed.

Lemma length_append (a b : string) :
  String.length (a ++ b) = (String.length a + String.length b)%nat.
Proof. induction a; simpl; congruence. Qed.

Lemma length_escape_each (s : string) :
  (String.length s <= String.length (escape_each s))%nat.
Proof.
  induction s as [|a s IH]; cbn [escape_each]; [lia|].
  rewrite length_append. destruct (reserved a) eqn:R.
  - destruct (escape_char_reserved a R) as (b & c & d & rest & ->). simpl. lia.
  - rewrite (escape_char_plain a R). simpl. lia.
Qed.

(** X16. [escapeHTML] leaves a string as it is exactly when the string
    holds none of the five reserved characters. *)
Theorem escapeHTML_fixes_plain_text (s : string) :
  escapeHTML s = s <-> keep reserved s = "".
Proof.
  rewrite escapeHTML_each. induction s as [|a s IH]; [now split|].
  cbn [escape_each keep]. destruct (reserved a) eqn:R.
  - split; [|discriminate]. intros H. exfalso.
    apply (f_equal String.length) in H. rewrite length_append in H.
    destruct (escape_char_reserved a R) as (b & c & d & rest & E). rewrite E in H.
    pose proof (length_escape_each s). simpl in H. lia.
  - rewrite (escape_char_plain a R). cbn [append]. split.
    + intros H. injection H as H. now apply IH.
    + intros H. f_equal. now apply IH.
Qed.

(** ** Nesting of the markup *)

Lemma nest_app (a b : string) (st : option (list string * option string)) :
  nest st (a ++ b) = nest (nest st a) b.
Proof. revert st; induction a; simpl; auto. Qed.

Lemma nest_escape_char (a : ascii) (stack : list string) :
  nest (Some (stack, None)) (escape_char a) = Some (stack, None).
Proof. destruct a as [[] [] [] [] [] [] [] []]; reflexivity. Qed.

Lemma nest_escapeHTML (s : string) (stack : list string) :
  nest (Some (stack, None)) (escapeHTML s) = Some (stack, None).
Proof.
  rewrite escapeHTML_each. induction s as [|a s IH]; [reflexivity|].
  cbn [escape_each]. now rewrite nest_app, nest_escape_char.
Qed.

Section Nesting.
Context {num : JSNumber}.

Lemma nest_rows (A : Type) (row : A -> string) (stack : list string) (l : list A) :
  Forall (fun x => nest (Some (stack, None)) (row x) = Some (stack, None)) l ->
  nest (Some (stack, None)) (Str.join "" (map row l)) = Some (stack, None).
Proof.
  induction 1 as [|x l Hx _ IH]; [reflexivity|].
  change (map row (x :: l)) with (row x :: map row l).
  now rewrite join_empty_cons, nest_app, Hx.
Qed.

Lemma nest_open_list (stack : list string) :
  in_item stack -> nest (Some (stack, None)) "<ul>" = Some ("ul" :: stack, None).
Proof. intros [-> | [below ->]]; reflexivity. Qed.

Lemma nest_generateHTML (v : value) :
  forall stack, in_item stack ->
    nest (Some (stack, None)) (generateHTML v) = Some (stack, None).
Proof.
  induction v as [ | | b | n | s | items IH | entries IH ] using value_ind;
    intros stack Hstack; try reflexivity; try apply nest_escapeHTML.
  - cbn [generateHTML]. rewrite !nest_app, (nest_open_list stack Hstack).
    rewrite nest_rows; [reflexivity|].
    eapply Forall_impl; [|exact IH]. intros x Hx. rewrite !nest_app.
    change (nest (Some ("ul" :: stack, None)) "<li>")
      with (Some ("li" :: "ul" :: stack, @None string)).
    rewrite Hx; [reflexivity | right; now eexists].
  - cbn [generateHTML]. rewrite !nest_app, (nest_open_list stack Hstack).
    rewrite nest_rows; [reflexivity|].
    eapply Forall_impl; [|exact IH]. intros [k x] Hx; cbn [fst snd] in *.
    rewrite !nest_app.
    change (nest (Some ("ul" :: stack, None)) "<li><strong>")
      with (Some ("strong" :: "li" :: "ul" :: stack, @None string)).
    rewrite nest_escapeHTML.
    change (nest (Some ("strong" :: "li" :: "ul" :: stack, None)) ":</strong> ")
      with (Some ("li" :: "ul" :: stack, @None string)).
    rewrite Hx; [reflexivity | right; now eexists].
Qed.

(** X17. The markup of every value is well nested: each tag the renderer
    opens is closed, innermost first, every list item sits directly in a
    list, and every list at the top or directly in a list item. *)
Theorem generateHTML_well_nested (v : value) : well_nested (generateHTML v) = true.
Proof.
  unfold well_nested. rewrite (nest_generateHTML v []); [reflexivity | now left].
Qed.

End Nesting.

(** ** The script on concrete pages *)

Section Runs.
Import Sample.

Example render_script : generateHTML (JStr "<script>") = "&lt;script&gt;".
Proof. reflexivity. Qed.

Example render_empty_sequence : generateHTML (JArr []) = "<ul></ul>".
Proof. reflexivity. Qed.

Example render_empty_mapping : generateHTML (JObj []) = "<ul></ul>".
Proof. reflexivity. Qed.

Example render_lookup_result :
  results (snd (init (answering (success (JObj [("postcode", JStr "SW1A 1AA");
                                                 ("country", JStr "England")])))
                     LookupPostcode (postcode_page " sw1a 1aa " [earlier_card])))
  = [{| heading := "Postcode: SW1A 1AA";
        content := "<ul><li><strong>postcode:</strong> SW1A 1AA</li>"
                     ++ "<li><strong>country:</strong> England</li></ul>" |}].
Proof. reflexivity. Qed.

Example render_not_found :
  results (snd (init (answering (JObj [("status", int 404);
                                       ("error", JStr "Postcode not found")]))
                     LookupPostcode (postcode_page "nope" [])))
  = [error_card (JStr "Postcode not found")].
Proof. reflexivity. Qed.

Example trim_postcode : Str.trim "  SW1A 1AA  " = "SW1A 1AA".
Proof. reflexivity. Qed.

Example encode_postcode : Str.encodeURIComponent "SW1A 1AA/x" = "SW1A%201AA%2Fx".
Proof. reflexivity. Qed.

(** Witness of C5: the lookup button on a postcode field of spaces. *)
Lemma empty_required_field_aborts_witness :
  In postcodeInput (required_fields LookupPostcode)
  /\ Str.trim (postcodeInput (inputs (postcode_page "   " [earlier_card]))) = ""
  /\ init offline LookupPostcode (postcode_page "   " [earlier_card])
     = (Ok tt, postcode_page "   " [earlier_card]).
Proof.
  assert (H1 : In postcodeInput (required_fields LookupPostcode)) by (left; reflexivity).
  assert (H2 : Str.trim (postcodeInput (inputs (postcode_page "   " [earlier_card]))) = "")
    by reflexivity.
  split; [exact H1|]. split; [exact H2|].
  exact (empty_required_field_aborts offline LookupPostcode postcodeInput
           (postcode_page "   " [earlier_card]) H1 H2).
Defined.

(** Witness of C3: 101 entries. *)
Lemma bulk_lookup_over_limit_witness :
  (100 < length (bulk_lines (bulkPostcodes (inputs (bulk_page (entries 101) [])))))%nat
  /\ results (snd (init offline BulkLookup (bulk_page (entries 101) [])))
     = [error_card (JStr "Bulk lookup is limited to 100 postcodes.")]
  /\ sent (snd (init offline BulkLookup (bulk_page (entries 101) []))) = [].
Proof.
  assert (H : (100 < length (bulk_lines (bulkPostcodes
                                           (inputs (bulk_page (entries 101) [])))))%nat)
    by (vm_compute; lia).
  split; [exact H|].
  destruct (bulk_lookup_over_limit offline (bulk_page (entries 101) []) H) as (E & S & _).
  split; [rewrite E; reflexivity | exact S].
Defined.

(** Witness of C4: the text [not json]. *)
Lemma bulk_reverse_invalid_json_witness :
  Str.trim (bulkGeo (inputs (geo_page "not json" []))) <> ""
  /\ parses_to_sequence (JSON_parse (Str.trim (bulkGeo (inputs (geo_page "not json" [])))))
     = false
  /\ results (snd (init offline BulkReverse (geo_page "not json" [])))
     = [error_card (JStr "Invalid JSON for bulk reverse geocode.")]
  /\ sent (snd (init offline BulkReverse (geo_page "not json" []))) = [].
Proof.
  assert (H1 : Str.trim (bulkGeo (inputs (geo_page "not json" []))) <> "")
    by (vm_compute; discriminate).
  assert (H2 : parses_to_sequence
                 (JSON_parse (Str.trim (bulkGeo (inputs (geo_page "not json" [])))))
               = false) by reflexivity.
  split; [exact H1|]. split; [exact H2|].
  destruct (bulk_reverse_invalid_json offline (geo_page "not json" []) H1 H2) as (E & S & _).
  split; [rewrite E; reflexivity | exact S].
Defined.

(** Witness of C9: a card on display stays when 101 entries are turned
    down. *)
Lemma turned_down_keeps_cards_witness :
  turned_down BulkLookup (inputs (bulk_page (entries 101) [earlier_card]))
  = Some "Bulk lookup is limited to 100 postcodes."
  /\ results (snd (init offline BulkLookup (bulk_page (entries 101) [earlier_card])))
     = [earlier_card; error_card (JStr "Bulk lookup is limited to 100 postcodes.")].
Proof.
  assert (H : turned_down BulkLookup (inputs (bulk_page (entries 101) [earlier_card]))
              = Some "Bulk lookup is limited to 100 postcodes.") by (vm_compute; reflexivity).
  split; [exact H|].
  exact (proj1 (turned_down_keeps_cards offline) BulkLookup
           (bulk_page (entries 101) [earlier_card]) _ H).
Defined.

(** Witness of C7: an envelope of status 404 with a boolean result. *)
Lemma validation_goes_by_boolean_result_witness :
  results (snd (init (answering (JObj [("status", int 404); ("result", JBool false)]))
                     ValidatePostcode (postcode_page "sw1a 1aa" [])))
  = [{| heading := "Validate Postcode: SW1A 1AA";
        content := generateHTML (JObj [("postcode", JStr "SW1A 1AA");
                                       ("valid", JBool false)]) |}].
Proof.
  exact (validation_goes_by_boolean_result
           (answering (JObj [("status", int 404); ("result", JBool false)]))
           (postcode_page "sw1a 1aa" []) _ _
           (JObj [("status", int 404); ("result", JBool false)])
           eq_refl eq_refl eq_refl eq_refl).
Defined.

(** Counterexample to C2 as stated: autocomplete shows one card for a
    sequence of two items; the postcode query whose first item is [null]
    shows one card, an error, for a sequence of two; and so it does for an
    item whose postcode has no string form. *)
Lemma sequence_not_one_card_per_item :
  (wants_nonempty_sequence Autocomplete = true
   /\ success_with (success (JArr two_postcodes)) two_postcodes
   /\ length two_postcodes = 2
   /\ length (results (snd (init (answering (success (JArr two_postcodes)))
                                 Autocomplete (postcode_page "SW1A" [])))) = 1)
  /\ (wants_nonempty_sequence QueryPostcode = true
      /\ success_with (success (JArr null_then_match)) null_then_match
      /\ length null_then_match = 2
      /\ results (snd (init (answering (success (JArr null_then_match)))
                            QueryPostcode (postcode_page "SW1A" [])))
         = [error_card (JStr "Cannot read properties of null (reading 'postcode')")])
  /\ (success_with (success (JArr untitled_match)) untitled_match
      /\ results (snd (init (answering (success (JArr untitled_match)))
                            QueryPostcode (postcode_page "SW1A" [])))
         = [error_card (JStr "Cannot convert object to primitive value")]).
Proof.
  repeat split; try reflexivity.
  all: exists (int 200); split; reflexivity.
Qed.

(** Witness of C2: a postcode query answered with two matches. *)
Lemma nonempty_sequence_cards_witness :
  exists cards,
    sequence_cards QueryPostcode (inputs (postcode_page "SW1A" [earlier_card])) two_matches
    = Some cards
    /\ results (snd (init (answering (success (JArr two_matches)))
                          QueryPostcode (postcode_page "SW1A" [earlier_card])))
       = cards
    /\ length cards = length two_matches.
Proof.
  refine (nonempty_sequence_cards (answering (success (JArr two_matches)))
            QueryPostcode (postcode_page "SW1A" [earlier_card]) _ _
            (success (JArr two_matches)) two_matches
            eq_refl eq_refl eq_refl eq_refl eq_refl _ _ _).
  - split; [exists (int 200); split|]; reflexivity.
  - discriminate.
  - repeat constructor; exists (JStr "SW1A 1AA") + exists (JStr "SW1A 1AB");
      eexists; split; reflexivity.
Defined.

(** Counterexample to C6 as stated: the call completes, the status is
    200, and [getJSON] fails all the same, the body not being JSON. *)
Lemma helper_fails_on_unreadable_body :
  fails (fst (getJSON not_json (URL (API_BASE ++ "/random/places"))
                (postcode_page "" [])))
  /\ ~ transport_failure (not_json (get_request (URL (API_BASE ++ "/random/places")))).
Proof.
  split.
  - now exists "Unexpected token < in JSON at position 0".
  - intros [[m H] | (r & H & Hok)]; [discriminate H|].
    injection H as <-. discriminate Hok.
Qed.

(** Counterexample to C10 as stated: a success envelope of two items,
    the first [null], leaves one card, and that card is an error; so does
    an item whose query has no string form. *)
Lemma bulk_lookup_null_item :
  success_with (success (JArr null_then_bulk_item)) null_then_bulk_item
  /\ length null_then_bulk_item = 2
  /\ results (snd (init (answering (success (JArr null_then_bulk_item)))
                        BulkLookup (bulk_page "SW1A 1AA" [])))
     = [error_card (JStr "Cannot read properties of null (reading 'query')")]
  /\ success_with (success (JArr untitled_bulk_item)) untitled_bulk_item
  /\ results (snd (init (answering (success (JArr untitled_bulk_item)))
                        BulkLookup (bulk_page "SW1A 1AA" [])))
     = [error_card (JStr "Cannot convert object to primitive value")].
Proof.
  repeat split; try reflexivity.
  all: exists (int 200); split; reflexivity.
Qed.

(** Witness of C10: two items, the second not found. *)
Lemma bulk_lookup_cards_witness :
  length (results (snd (init (answering (success (JArr bulk_items)))
                             BulkLookup (bulk_page "SW1A 1AA, ZZ99 9ZZ" []))))
  = length bulk_items
  /\ Forall2 bulk_card bulk_items
       (results (snd (init (answering (success (JArr bulk_items)))
                           BulkLookup (bulk_page "SW1A 1AA, ZZ99 9ZZ" [])))).
Proof.
  refine (bulk_lookup_cards (answering (success (JArr bulk_items)))
            (bulk_page "SW1A 1AA, ZZ99 9ZZ" []) _ _
            (success (JArr bulk_items)) bulk_items
            eq_refl eq_refl eq_refl eq_refl _ _).
  - split; [exists (int 200); split|]; reflexivity.
  - repeat constructor; exists (JStr "SW1A 1AA") + exists (JStr "ZZ99 9ZZ");
      eexists; split; reflexivity.
Defined.

Example bulk_lookup_run :
  results (snd (init (answering (success (JArr bulk_items)))
                     BulkLookup (bulk_page "SW1A 1AA, ZZ99 9ZZ" [])))
  = [{| heading := "Bulk Result for SW1A 1AA";
        content := "<ul><li><strong>country:</strong> England</li></ul>" |};
     {| heading := "Bulk Result for ZZ99 9ZZ";
        content := "<ul><li><strong>error:</strong> Not found</li></ul>" |}].
Proof. reflexivity. Qed.

Example query_run :
  map heading
    (results (snd (init (answering (success (JArr two_matches)))
                        QueryPostcode (postcode_page "SW1A" [earlier_card]))))
  = ["Match 1: SW1A 1AA"; "Match 2: SW1A 1AB"].
Proof. reflexivity. Qed.

End Runs.

(** ** More runs *)

Section MoreRuns.
Import Sample.

Example nesting_checks :
  well_nested "<ul><li>a</li></ul>" = true
  /\ well_nested "<ul><li>a</ul></li>" = false
  /\ well_nested "<li>a</li>" = false
  /\ well_nested "<ul><li>a</li>" = false
  /\ well_nested "a > b" = false.
Proof. repeat split; reflexivity. Qed.

Example read_back_checks :
  text_content "<ul><li>a &amp; b &lt;c&gt;</li></ul>" = "a & b <c>"
  /\ text_content (escapeHTML "&lt;") = "&lt;"
  /\ text_content (generateHTML (JObj [("a<b", JStr "x&y"); ("n", JNull)]))
     = "a<b: x&yn: null".
Proof. repeat split; reflexivity. Qed.

Example scan_checks :
  well_escaped template_tags "<ul><li>a &amp; b</li></ul>" = true
  /\ well_escaped template_tags "<script>" = false
  /\ well_escaped template_tags "a & b" = false.
Proof. repeat split; reflexivity. Qed.

Example bulk_lines_run :
  bulk_lines ("SW1A 1AA, ," ++ String "010" "  ZZ99 9ZZ" ++ String "010" ",")
  = ["SW1A 1AA"; "ZZ99 9ZZ"].
Proof. reflexivity. Qed.


(** Witness of X4: a lookup answered with [404 Not Found]. *)
Lemma failed_request_card_witness :
  results (snd (init (not_found (failure "Postcode not found")) LookupPostcode
                     (postcode_page "ZZ99 9ZZ" [earlier_card])))
  = [error_card (JStr "404 Not Found")].
Proof.
  exact (proj1 (proj2 (failed_request_card
                         (not_found (failure "Postcode not found")) LookupPostcode
                         (postcode_page "ZZ99 9ZZ" [earlier_card]) _ eq_refl))
           _ eq_refl eq_refl).
Defined.

(** Witness of X5: the postcode lookup. *)
Lemma single_result_card_witness :
  wants_single_result LookupPostcode = true
  /\ exists title,
      shows_result_as LookupPostcode (inputs (postcode_page "sw1a 1aa" [])) title.
Proof.
  split; [reflexivity|].
  exact (single_result_card LookupPostcode (inputs (postcode_page "sw1a 1aa" [])) eq_refl).
Defined.

(** Witness of X6: the outcode lookup of [ZZ99], which sends its
    request. *)
Lemma lookup_failure_card_witness :
  shows_api_error LookupOutcode = true
  /\ outgoing LookupOutcode (inputs (outcode_page "ZZ99" []))
     = Some (get_request (URL "https://api.postcodes.io/outcodes/ZZ99"))
  /\ exists fallback,
      shows_error_or LookupOutcode (inputs (outcode_page "ZZ99" [])) fallback.
Proof.
  split; [reflexivity|]. split; [reflexivity|].
  exact (lookup_failure_card LookupOutcode (inputs (outcode_page "ZZ99" [])) eq_refl).
Defined.

Example outcode_failure_run :
  results (snd (init (answering (failure "Outcode not found")) LookupOutcode
                     (outcode_page "ZZ99" [earlier_card])))
  = [error_card (JStr "Outcode not found")]
  /\ results (snd (init (answering (JObj [("status", int 404); ("error", JNull)]))
                        LookupOutcode (outcode_page "ZZ99" [earlier_card])))
     = [error_card (JStr "No data found for outcode 'ZZ99'.")].
Proof. split; reflexivity. Qed.

(** Witness of X7: the nearest postcodes. *)
Lemma fixed_failure_card_witness :
  has_fixed_failure NearestPostcode = true
  /\ exists message,
      shows_failure_as NearestPostcode (inputs (postcode_page "SW1A 1AA" [])) message.
Proof.
  split; [reflexivity|].
  exact (fixed_failure_card NearestPostcode (inputs (postcode_page "SW1A 1AA" [])) eq_refl).
Defined.

Example lookup_failure_run :
  results (snd (init (answering (failure "Invalid postcode")) LookupPostcode
                     (postcode_page "nope" [])))
  = [error_card (JStr "Invalid postcode")]
  /\ results (snd (init (answering (JObj [("status", int 404)])) LookupPostcode
                        (postcode_page "nope" [])))
     = [error_card (JStr "No data found for nope")]
  /\ results (snd (init (answering (failure "Invalid postcode")) NearestPostcode
                        (postcode_page "nope" [])))
     = [error_card (JStr "No nearest postcodes found for 'nope'.")].
Proof. repeat split; reflexivity. Qed.

(** Witness of X8: a postcode query whose second item is [null]. *)
Lemma rendering_stops_at_bad_item_witness :
  exists message,
    results (snd (init (answering (success (JArr match_null_match))) QueryPostcode
                       (postcode_page "SW1A" [])))
    = [{| heading := "Match 1: SW1A 1AA";
          content := generateHTML (JObj [("postcode", JStr "SW1A 1AA")]) |};
       error_card (JStr message)].
Proof.
  refine (rendering_stops_at_bad_item
            (answering (success (JArr match_null_match))) QueryPostcode
            (postcode_page "SW1A" []) _ _ (success (JArr match_null_match))
            [JObj [("postcode", JStr "SW1A 1AA")]] JNull
            [JObj [("postcode", JStr "SW1A 1AB")]]
            [{| heading := "Match 1: SW1A 1AA";
                content := generateHTML (JObj [("postcode", JStr "SW1A 1AA")]) |}]
            eq_refl eq_refl eq_refl eq_refl eq_refl _ eq_refl eq_refl).
  split; [exists (int 200); split|]; reflexivity.
Defined.

(** Witness of X9: two coordinates, the second without a postcode. *)
Lemma bulk_reverse_cards_witness :
  length (results (snd (init (answering (success (JArr reverse_items))) BulkReverse
                             (geo_page "[1, 2]" []))))
  = length reverse_items
  /\ forall n item,
       nth_error reverse_items n = Some item ->
       exists result,
         get item "result" = Ok result
         /\ nth_error (results (snd (init (answering (success (JArr reverse_items)))
                                          BulkReverse (geo_page "[1, 2]" [])))) n
            = Some {| heading := "Bulk Reverse Result " ++ Str.of_nat (n + 1);
                      content := generateHTML result |}.
Proof.
  refine (bulk_reverse_cards (answering (success (JArr reverse_items)))
            (geo_page "[1, 2]" []) _ _ (success (JArr reverse_items)) reverse_items
            eq_refl eq_refl eq_refl eq_refl _ _).
  - split; [exists (int 200); split|]; reflexivity.
  - repeat constructor; discriminate.
Defined.

Example bulk_reverse_run :
  map heading (results (snd (init (answering (success (JArr reverse_items))) BulkReverse
                                  (geo_page "[1, 2]" [earlier_card]))))
  = ["Bulk Reverse Result 1"; "Bulk Reverse Result 2"]
  /\ results (snd (init (answering (success (JArr []))) BulkReverse
                        (geo_page "[]" [earlier_card])))
     = [].
Proof. split; reflexivity. Qed.

(** Witness of X11: two entries. *)
Lemma bulk_request_within_limit_witness :
  (1 <= length (bulk_lines (bulkPostcodes (inputs (bulk_page "SW1A 1AA, ZZ99 9ZZ" []))))
   <= 100)%nat.
Proof.
  exact (proj2 (bulk_request_within_limit
                  (inputs (bulk_page "SW1A 1AA, ZZ99 9ZZ" [])) _ eq_refl)).
Defined.

(** Witness of X12: the autocomplete. *)
Lemma requests_go_to_api_witness :
  exists req,
    outgoing Autocomplete (inputs (postcode_page "SW1A" [])) = Some req
    /\ String.prefix (API_BASE ++ "/") (href (target req)) = true
    /\ method req = GET /\ headers req = [] /\ body req = None.
Proof.
  eexists. split; [reflexivity|].
  exact (requests_go_to_api Autocomplete (inputs (postcode_page "SW1A" [])) _ eq_refl).
Defined.

(** Witness of X13: a postcode and a text full of delimiters. *)
Lemma input_adds_no_url_delimiter_witness :
  exists req req',
    outgoing LookupPostcode (inputs (postcode_page "SW1A 1AA" [])) = Some req
    /\ outgoing LookupPostcode (inputs (postcode_page "../x?y#z" [])) = Some req'
    /\ href (target req') = "https://api.postcodes.io/postcodes/..%2Fx%3Fy%23z"
    /\ searchParams (target req) = []
    /\ keep url_delimiter (href (target req)) = keep url_delimiter (href (target req')).
Proof.
  eexists. eexists. split; [reflexivity|]. split; [reflexivity|]. split; [reflexivity|].
  exact (input_adds_no_url_delimiter LookupPostcode
           (inputs (postcode_page "SW1A 1AA" [])) (inputs (postcode_page "../x?y#z" []))
           _ _ eq_refl eq_refl eq_refl).
Defined.

(** Witness of X14: one network, the two helpers. *)
Lemma helpers_agree_witness :
  fst (getJSON not_json (URL (API_BASE ++ "/random/places")) (postcode_page "" []))
  = fst (postJSON not_json (URL (API_BASE ++ "/postcodes")) (JObj [])
           (postcode_page "" [earlier_card])).
Proof.
  exact (helpers_agree not_json (URL (API_BASE ++ "/random/places"))
           (URL (API_BASE ++ "/postcodes")) (JObj [])
           (postcode_page "" []) (postcode_page "" [earlier_card]) eq_refl).
Defined.

(** Witness of X15. *)
Lemma escapeHTML_injective_witness :
  escapeHTML "a<b" = escapeHTML "a<b" /\ "a<b" = "a<b".
Proof.
  split; [reflexivity|].
  exact (escapeHTML_injective "a<b" "a<b" eq_refl).
Defined.

End MoreRuns.
